(** * data-view-render.js: catalog loader and incremental renderer

    A shallow embedding of [src/data-view-render.js].  The script fetches a
    tab-separated catalog, parses each row with four small regular
    expressions, normalises price, link and category, and appends cards to
    the page in batches of 24 as the user scrolls.

    Strings are sequences of UTF-16 code units, as in JavaScript.  Numbers
    are IEEE 754 binary64 values, kept exactly as [m * 2^e].  The module
    level variables of the script and the part of the page it touches form
    an explicit state, threaded through the handlers by a small state and
    exception monad. *)

From Stdlib Require Import List Bool Arith ZArith NArith Lia String Ascii.
Import ListNotations.

Set Implicit Arguments.

(* ===================================================================== *)
(** * Part I: definitions                                                 *)
(* ===================================================================== *)

(** ** JavaScript strings *)

Open Scope N_scope.

Definition char := N.
Definition jsstring := list char.

Definition ch (a : ascii) : char := N_of_ascii a.

(** [js "text"] is the JavaScript string with the code units of an ASCII
    literal. *)
Definition js (s : string) : jsstring := map ch (list_ascii_of_string s).

Definition TAB : char := 9.
Definition LF : char := 10.
Definition CR : char := 13.
Definition DOLLAR : char := Eval cbv in ch "$".
Definition COMMA : char := Eval cbv in ch ",".
Definition DOT : char := Eval cbv in ch ".".
Definition PLUS : char := Eval cbv in ch "+".
Definition MINUS : char := Eval cbv in ch "-".
Definition PERCENT : char := Eval cbv in ch "%".
Definition LBRACKET : char := Eval cbv in ch "[".
Definition RBRACKET : char := Eval cbv in ch "]".
Definition LPAREN : char := Eval cbv in ch "(".
Definition RPAREN : char := Eval cbv in ch ")".
Definition LBRACE : char := Eval cbv in ch "{".
Definition RBRACE : char := Eval cbv in ch "}".
Definition ZERO : char := Eval cbv in ch "0".

Fixpoint jseqb (a b : jsstring) : bool :=
  match a, b with
  | [], [] => true
  | x :: a', y :: b' => N.eqb x y && jseqb a' b'
  | _, _ => false
  end.

(** A string is truthy when it is not empty: [if (s)], [!s], [Boolean]. *)
Definition truthy (s : jsstring) : bool :=
  match s with [] => false | _ :: _ => true end.

(** WhiteSpace and LineTerminator code points of ECMAScript: what [trim]
    removes, what [\s] matches and what [Number] skips around a literal. *)
Definition is_space (c : char) : bool :=
  ((9 <=? c) && (c <=? 13)) || (c =? 32) || (c =? 160) || (c =? 5760)
  || ((8192 <=? c) && (c <=? 8202)) || (c =? 8232) || (c =? 8233)
  || (c =? 8239) || (c =? 8287) || (c =? 12288) || (c =? 65279).

Fixpoint trimStart (s : jsstring) : jsstring :=
  match s with
  | [] => []
  | c :: r => if is_space c then trimStart r else s
  end.

Definition trimEnd (s : jsstring) : jsstring := rev (trimStart (rev s)).

Definition trim (s : jsstring) : jsstring := trimEnd (trimStart s).

(** [s.replace(/c/g, "")] for a single character [c]. *)
Definition remove_all (c : char) (s : jsstring) : jsstring :=
  filter (fun x => negb (x =? c)) s.

(** Puts [c] in front of the first piece of a split. *)
Definition cons_first (c : char) (pieces : list jsstring) : list jsstring :=
  match pieces with
  | [] => [[c]]
  | h :: t => (c :: h) :: t
  end.

(** [s.split(sep)] for a one-character separator: never empty. *)
Fixpoint split_char (sep : char) (s : jsstring) : list jsstring :=
  match s with
  | [] => [[]]
  | c :: r => if c =? sep then [] :: split_char sep r
              else cons_first c (split_char sep r)
  end.

(** [text.split(/\r?\n/)]: scanning from the left, a carriage return
    directly followed by a line feed is one separator, a line feed alone is
    one separator, every other code unit belongs to the current piece. *)
Fixpoint split_lines (s : jsstring) : list jsstring :=
  match s with
  | [] => [[]]
  | c :: r =>
      match r with
      | c2 :: r2 =>
          if (c =? CR) && (c2 =? LF) then [] :: split_lines r2
          else if c =? LF then [] :: split_lines r
          else cons_first c (split_lines r)
      | [] => if c =? LF then [[]; []] else [[c]]
      end
  end.


(** [/^\s*\[/.test(line)] *)
Definition starts_with_bracket (line : jsstring) : bool :=
  match trimStart line with
  | c :: _ => c =? LBRACKET
  | [] => false
  end.

(** The longest prefix without [stop], and what follows it. *)
Fixpoint span_not (stop : char) (s : jsstring) : jsstring * jsstring :=
  match s with
  | [] => ([], [])
  | c :: r => if c =? stop then ([], s)
              else let (run, rest) := span_not stop r in (c :: run, rest)
  end.

(** First capture group of the leftmost match of [/o([^c]+)c/] in [s], for
    single characters [o] and [c].  At a position holding [o] the greedy
    class takes every following code unit other than [c]; the match succeeds
    when that run is not empty and [c] follows it (a shorter run is followed
    by a code unit of the run, never by [c]); otherwise the search moves one
    position to the right. *)
Fixpoint capture (o c : char) (s : jsstring) : option jsstring :=
  match s with
  | [] => None
  | x :: r =>
      if x =? o then
        match span_not c r with
        | ((_ :: _) as run, _ :: _) => Some run
        | _ => capture o c r
        end
      else capture o c r
  end.

(** [(s.match(/o([^c]+)c/) || [null, ""])[1]] *)
Definition capture_or_empty (o c : char) (s : jsstring) : jsstring :=
  match capture o c s with
  | Some g => g
  | None => []
  end.

Close Scope N_scope.

(** ** JavaScript numbers

    A Number is NaN, an infinity or a finite binary64 value.  A finite value
    is kept as sign, integer significand [m] and exponent [e], standing for
    [m * 2^e]; values built by [round_ratio] are canonical: [m = 0] (with
    [e = 0]), or [2^52 <= m < 2^53] and [-1074 <= e <= 971], or
    [0 < m < 2^52] and [e = -1074]. *)

Open Scope Z_scope.

Inductive number : Type :=
  | NaN
  | Inf (neg : bool)
  | Fin (neg : bool) (m e : Z).

Definition number_eqb (a b : number) : bool :=
  match a, b with
  | NaN, NaN => true
  | Inf s, Inf t => Bool.eqb s t
  | Fin s m e, Fin t n f => Bool.eqb s t && (m =? n) && (e =? f)
  | _, _ => false
  end.

(** The global [isFinite] on a Number. *)
Definition isFinite (x : number) : bool :=
  match x with
  | Fin _ _ _ => true
  | _ => false
  end.

(** [floor (log2 (p / q))] for positive [p] and [q]. *)
Definition floor_log2_ratio (p q : Z) : Z :=
  let d := Z.log2 p - Z.log2 q in
  let above := if 0 <=? d then q * 2 ^ d <=? p else q <=? p * 2 ^ (- d) in
  if above then d else d - 1.

(** The binary64 value nearest to [p / q] ([0 <= p], [0 < q]), ties to the
    even significand, overflowing to an infinity. *)
Definition round_ratio (neg : bool) (p q : Z) : number :=
  if p =? 0 then Fin neg 0 0
  else
    let e := Z.max (floor_log2_ratio p q - 52) (-1074) in
    let num := if 0 <=? e then p else p * 2 ^ (- e) in
    let den := if 0 <=? e then q * 2 ^ e else q in
    let m := num / den in
    let r := num mod den in
    let m1 := if 2 * r <? den then m
              else if den <? 2 * r then m + 1
              else if Z.even m then m else m + 1 in
    if m1 =? 0 then Fin neg 0 0
    else
      let m2 := if m1 =? 2 ^ 53 then 2 ^ 52 else m1 in
      let e2 := if m1 =? 2 ^ 53 then e + 1 else e in
      if 971 <? e2 then Inf neg else Fin neg m2 e2.

(** The value [d * 10^x] as a Number. *)
Definition round_decimal (neg : bool) (d x : Z) : number :=
  if 0 <=? x then round_ratio neg (d * 10 ^ x) 1
  else round_ratio neg d (10 ^ (- x)).

(** *** Reading digits *)

Definition digit_in (base : Z) (c : char) : option Z :=
  let v := Z.of_N c in
  let d := if (48 <=? v) && (v <=? 57) then v - 48
           else if (97 <=? v) && (v <=? 102) then v - 87
           else if (65 <=? v) && (v <=? 70) then v - 55
           else base in
  if d <? base then Some d else None.

Definition is_digit (c : char) : bool :=
  match digit_in 10 c with Some _ => true | None => false end.

(** The longest prefix of digits of the base, with its value read from the
    left starting at [acc], its length, and the rest of the string. *)
Fixpoint read_digits (base : Z) (acc : Z) (len : Z) (s : jsstring)
  : Z * Z * jsstring :=
  match s with
  | [] => (acc, len, [])
  | c :: r =>
      match digit_in base c with
      | Some d => read_digits base (acc * base + d) (len + 1) r
      | None => (acc, len, s)
      end
  end.

(** NonDecimalIntegerLiteral: [0x], [0o] or [0b] (either case) followed by
    one or more digits of the base and nothing else. *)
Definition parse_nondecimal (s : jsstring) : option Z :=
  match s with
  | z :: p :: r =>
      let base := if negb (z =? ZERO)%N then 0
                  else if (p =? 120)%N || (p =? 88)%N then 16
                  else if (p =? 111)%N || (p =? 79)%N then 8
                  else if (p =? 98)%N || (p =? 66)%N then 2
                  else 0 in
      if base =? 0 then None
      else
        match read_digits base 0 0 r with
        | (v, len, []) => if 0 <? len then Some v else None
        | _ => None
        end
  | _ => None
  end.

(** ExponentPart after its [e] or [E]: an optional sign and one or more
    decimal digits, up to the end of the string. *)
Definition parse_exponent (s : jsstring) : option Z :=
  let neg := match s with c :: _ => (c =? MINUS)%N | [] => false end in
  let r := match s with
           | c :: r' => if (c =? MINUS)%N || (c =? PLUS)%N then r' else s
           | [] => s
           end in
  match read_digits 10 0 0 r with
  | (v, len, []) => if 0 <? len then Some (if neg then - v else v) else None
  | _ => None
  end.

(** StrUnsignedDecimalLiteral other than [Infinity]: digits with an optional
    fraction, or a fraction alone, and an optional exponent.  The result
    [(d, x)] stands for [d * 10^x]. *)
Definition parse_decimal (s : jsstring) : option (Z * Z) :=
  match read_digits 10 0 0 s with
  | (ip, ilen, r1) =>
      let '(d, flen, r2) :=
        match r1 with
        | c :: r => if (c =? DOT)%N then read_digits 10 ip 0 r
                    else (ip, 0, r1)
        | [] => (ip, 0, r1)
        end in
      if ilen + flen =? 0 then None
      else
        match r2 with
        | [] => Some (d, - flen)
        | c :: r3 =>
            if (c =? 101)%N || (c =? 69)%N then
              match parse_exponent r3 with
              | Some x => Some (d, x - flen)
              | None => None
              end
            else None
        end
  end.

(** [Number(s)] on a string: StringToNumber.  White space around the literal
    is skipped, the empty literal is [+0], a literal outside the grammar is
    NaN.  The value of a decimal literal is rounded exactly. *)
Definition Number (s : jsstring) : number :=
  match trim s with
  | [] => Fin false 0 0
  | (c :: r) as t =>
      match parse_nondecimal t with
      | Some v => round_ratio false v 1
      | None =>
          let neg := (c =? MINUS)%N in
          let u := if (c =? MINUS)%N || (c =? PLUS)%N then r else t in
          if jseqb u (js "Infinity") then Inf neg
          else
            match parse_decimal u with
            | Some (d, x) => round_decimal neg d x
            | None => NaN
            end
      end
  end.

(** *** Printing digits *)

Definition digit_char (d : Z) : char := Z.to_N (48 + d).

Fixpoint digits_fuel (fuel : nat) (n : Z) (acc : jsstring) : jsstring :=
  match fuel with
  | O => acc
  | S fuel' =>
      if n <? 10 then digit_char n :: acc
      else digits_fuel fuel' (n / 10) (digit_char (n mod 10) :: acc)
  end.

(** The decimal representation of [n >= 0], without leading zeros. *)
Definition digits (n : Z) : jsstring :=
  digits_fuel (S (Z.to_nat (Z.log2 n))) n [].

(** [Number::toString] for a finite value [X >= 10^21], an integer with [d]
    decimal digits: the shortest significand [s] of [k] digits for which
    [s * 10^(n-k)] reads back as [x]; of the two neighbours of [X] with [k]
    digits the nearer is taken (the even one on a tie). *)
Fixpoint shortest (fuel : nat) (k : Z) (X d : Z) (x : number) : Z * Z :=
  match fuel with
  | O => (X, d)
  | S fuel' =>
      let u := 10 ^ (d - k) in
      let lo := X / u in
      let hi := lo + 1 in
      let ok_lo := number_eqb (round_ratio false (lo * u) 1) x in
      let ok_hi := number_eqb (round_ratio false (hi * u) 1) x in
      let near_lo := (X - lo * u <? hi * u - X)
                     || ((X - lo * u =? hi * u - X) && Z.even lo) in
      let s := if ok_lo && (negb ok_hi || near_lo) then lo else hi in
      if ok_lo || ok_hi then
        if s =? 10 ^ k then (10 ^ (k - 1), d + 1) else (s, d)
      else shortest fuel' (k + 1) X d x
  end.

Definition toString_large (X : Z) : jsstring :=
  let d := Z.of_nat (List.length (digits X)) in
  let '(s, n) := shortest 17 1 X d (round_ratio false X 1) in
  match digits s with
  | [] => []
  | c :: rest =>
      c :: (match rest with [] => [] | _ :: _ => DOT :: rest end)
        ++ js "e+" ++ digits (n - 1)
  end.

(** A finite value [m * 2^e] as a fraction. *)
Definition numerator (m e : Z) : Z := if 0 <=? e then m * 2 ^ e else m.
Definition denominator (e : Z) : Z := if 0 <=? e then 1 else 2 ^ (- e).

(** The integer [n] for which [n / 10^f] is nearest to [num / den], the
    larger one when two are equally near. *)
Definition nearest_scaled (f : nat) (num den : Z) : Z :=
  (2 * num * 10 ^ Z.of_nat f + den) / (2 * den).

(** The number written by a string of decimal digits. *)
Definition decimal_value (s : jsstring) : Z :=
  fold_left (fun acc c => acc * 10 + (Z.of_N c - 48)) s 0.

(** [x.toFixed(f)] for [0 <= f <= 100].  A finite [x] below [10^21] in
    magnitude is printed through the integer [n] nearest to [x * 10^f],
    padded with zeros to more than [f] digits, with a point before the last
    [f] digits; [10^21] and above go through [Number::toString]. *)
Definition toFixed (f : nat) (x : number) : jsstring :=
  match x with
  | NaN => js "NaN"
  | Inf neg => (if neg then js "-" else []) ++ js "Infinity"
  | Fin neg m e =>
      let s := if neg && negb (m =? 0) then js "-" else [] in
      let num := numerator m e in
      let den := denominator e in
      if 10 ^ 21 * den <=? num then s ++ toString_large num
      else
        let n := nearest_scaled f num den in
        let m0 := if n =? 0 then js "0" else digits n in
        if (f =? 0)%nat then s ++ m0
        else
          let k := List.length m0 in
          let m1 := if (k <=? f)%nat then repeat ZERO (f + 1 - k) ++ m0
                    else m0 in
          let k1 := List.length m1 in
          s ++ firstn (k1 - f) m1 ++ DOT :: skipn (k1 - f) m1
  end.

Close Scope Z_scope.

(** ** Price normalisation *)

(** [String(raw).replace(/\$/g, "").replace(/,/g, "").trim()] *)
Definition stripped (raw : jsstring) : jsstring :=
  trim (remove_all COMMA (remove_all DOLLAR raw)).

(** [formatPrice(raw)]; [None] stands for a [null] or [undefined] argument. *)
Definition formatPrice (raw : option jsstring) : jsstring :=
  match raw with
  | None => js "$0.00"
  | Some raw =>
      let s := stripped raw in
      let n := Number s in
      if negb (isFinite n) then js "$" ++ s
      else js "$" ++ toFixed 2 n
  end.

(** ** What the host provides

    The script calls into the browser for three things that are too large to
    embed: the URL parser and serialiser, the Unicode case mappings and the
    locale's number format.  They are a parameter of the development.  A
    parsed URL is seen through its [searchParams] list; the components
    before the query and the fragment stay as the host parsed them. *)

Record URL : Type := mkURL {
  url_base : jsstring;
  searchParams : list (jsstring * jsstring);
  url_hash : jsstring
}.

Definition ascii_string (s : jsstring) : Prop := Forall (fun c => (c < 128)%N) s.

Definition lower_ascii (c : char) : char :=
  if ((65 <=? c) && (c <=? 90))%N then (c + 32)%N else c.

Definition upper_ascii (c : char) : char :=
  if ((97 <=? c) && (c <=? 122))%N then (c - 32)%N else c.

Class Host : Type := {
  (** [new URL(link)]: [None] when the constructor throws. *)
  URL_parse : jsstring -> option URL;
  (** [u.toString()] *)
  URL_href : URL -> jsstring;
  toLowerCase : jsstring -> jsstring;
  toUpperCase : jsstring -> jsstring;
  (** [n.toLocaleString()] for a count *)
  toLocaleString : nat -> jsstring;
  (** On ASCII strings the case mappings act letter by letter. *)
  toLowerCase_ascii :
    forall s, ascii_string s -> toLowerCase s = map lower_ascii s;
  toUpperCase_ascii :
    forall s, ascii_string s -> toUpperCase s = map upper_ascii s
}.

(** [searchParams.set(name, value)]: the first pair named [name] takes the
    value and the later ones are removed; without such a pair a new one is
    appended. *)
Definition named (name : jsstring) (p : jsstring * jsstring) : bool :=
  jseqb (fst p) name.

Fixpoint set_first (name value : jsstring) (l : list (jsstring * jsstring))
  : list (jsstring * jsstring) :=
  match l with
  | [] => []
  | p :: r =>
      if named name p then (fst p, value) :: filter (fun q => negb (named name q)) r
      else p :: set_first name value r
  end.

Definition params_set (name value : jsstring) (l : list (jsstring * jsstring))
  : list (jsstring * jsstring) :=
  if existsb (named name) l then set_first name value l
  else l ++ [(name, value)].

(** ** Records and cards *)

Record Product : Type := mkProduct {
  id : nat;
  name : jsstring;
  link : jsstring;
  price : jsstring;
  category : jsstring;
  image : jsstring
}.

(** The lower part of a card: a link to buy, or a placeholder. *)
Inductive Action : Type :=
  | Buy (href : jsstring)
  | LinkChecking.

(** A card, as the values interpolated into the template of [createCard],
    in the order of the markup; the static markup is left out. *)
Record Card : Type := mkCard {
  img_src : jsstring;
  img_alt : jsstring;
  heading : jsstring;
  category_line : jsstring;
  price_text : jsstring;
  status_pill : jsstring;
  action : Action
}.

(** A child of the grid: a card of the script, or markup that was in the
    page before. *)
Inductive Node : Type :=
  | CardNode (c : Card)
  | PageNode (markup : jsstring).

Inductive Error : Type :=
  | TypeError
  | FetchRejected
  | BodyRejected
  | LoadFailed (message : jsstring).

(** What [fetch] and [res.text()] deliver: a rejected fetch, or a response
    with its [ok] flag and its body ([None] when reading the body fails). *)
Inductive Fetch : Type :=
  | Rejected
  | Response (ok : bool) (body : option jsstring).

Definition BATCH_SIZE : nat := 24.

Section Loader.
Context `{Host}.

Definition capitalize (word : jsstring) : jsstring :=
  match word with
  | [] => []
  | c :: rest => toUpperCase [c] ++ rest
  end.

Definition updateRef (link : jsstring) : jsstring :=
  match URL_parse link with
  | Some u =>
      URL_href (mkURL (url_base u)
                      (params_set (js "ref") (js "100201678") (searchParams u))
                      (url_hash u))
  | None => link
  end.

(** [parseRow(line, index)]; [None] is [null]. *)
Definition parseRow (line : jsstring) (index : nat) : option Product :=
  let parts := split_char TAB line in
  if (List.length parts <? 3)%nat then None
  else
    let col1 := trim (nth 0 parts []) in
    let image := trim (nth 2 parts []) in
    let name := trim (capture_or_empty LBRACKET RBRACKET col1) in
    let link := trim (capture_or_empty LPAREN RPAREN col1) in
    let priceRaw := trim (capture_or_empty LBRACE RBRACE col1) in
    let category :=
      toLowerCase (trim (capture_or_empty PERCENT PERCENT col1)) in
    if negb (truthy name) then None
    else
      let link := if truthy link then updateRef link else link in
      let price := formatPrice (Some priceRaw) in
      Some (mkProduct (index + 1) name link price category image).

(** The loop of [loadProducts] over the remaining lines, with the rows
    pushed so far. *)
Fixpoint parse_rows (lines : list jsstring) (out : list Product)
  : list Product :=
  match lines with
  | [] => out
  | line :: rest =>
      match parseRow line (List.length out) with
      | Some row => parse_rows rest (out ++ [row])
      | None => parse_rows rest out
      end
  end.

(** [loadProducts] from the text of the response on. *)
Definition parse_text (text : jsstring) : list Product :=
  let lines := filter truthy (split_lines text) in
  match lines with
  | [] => []
  | first :: _ =>
      let startIdx := if starts_with_bracket first then 0%nat else 1%nat in
      parse_rows (skipn startIdx lines) []
  end.

(** The name of a row as the row parser extracts it. *)
Definition row_name (line : jsstring) : jsstring :=
  trim (capture_or_empty LBRACKET RBRACKET
          (trim (nth 0 (split_char TAB line) []))).

(** A row is accepted when it has three columns or more and a name. *)
Definition accepted (line : jsstring) : bool :=
  (3 <=? List.length (split_char TAB line))%nat && truthy (row_name line).

(** The lines left after the blank ones and the header are gone. *)
Definition data_lines (text : jsstring) : list jsstring :=
  match filter truthy (split_lines text) with
  | [] => []
  | first :: rest =>
      if starts_with_bracket first then first :: rest else rest
  end.

Definition loadProducts (f : Fetch) : Error + list Product :=
  match f with
  | Rejected => inl FetchRejected
  | Response false _ => inl (LoadFailed (js "Failed to load gemini_products.csv"))
  | Response true None => inl BodyRejected
  | Response true (Some text) => inr (parse_text text)
  end.

Definition createCard (p : Product) : Card :=
  mkCard (image p) (name p) (name p)
         (js "Category: " ++ capitalize (category p))
         (price p) (js "Available")
         (if truthy (link p) then Buy (link p) else LinkChecking).

End Loader.

(** ** The page and the variables of the script *)

(** The part of the document the script reads and writes: the element
    [#data-view], its [hidden] class, and the first [main] and [footer]
    inside it with the children of the one and the text of the other. *)
Record Dom : Type := mkDom {
  view_exists : bool;
  view_hidden : bool;
  main_exists : bool;
  main_children : list Node;
  footer_exists : bool;
  footer_text : jsstring
}.

(** The variables [grid] and [footerEl] are [undefined] ([false]) or hold
    the [main] and the [footer] of the view ([true]); the elements
    themselves live in the document, so a write through the variable is a
    write to [dom]. *)
Record State : Type := mkState {
  PRODUCTS : list Product;
  rendered : nat;
  initialized : bool;
  grid : bool;
  footerEl : bool;
  dom : Dom;
  (** pending [setTimeout(initDataView, 50)] callbacks *)
  timers : nat;
  (** whether [onScroll] is registered *)
  scroll_listener : bool;
  (** what [console.error] has received *)
  console : list Error
}.

(** The geometry read by [nearBottom] at a scroll event. *)
Record Window : Type := mkWindow {
  scrollY : Z;
  pageYOffset : Z;
  innerHeight : Z;
  clientHeight : Z;
  scrollHeight : Z
}.

(** The page as the script finds it. *)
Record Page : Type := mkPage {
  page_view : bool;
  page_hidden : bool;
  page_main : option (list Node);
  page_footer : option jsstring
}.

Definition initial (pg : Page) : State :=
  mkState [] 0 false false false
    (mkDom (page_view pg) (page_hidden pg)
       (match page_main pg with Some _ => true | None => false end)
       (match page_main pg with Some l => l | None => [] end)
       (match page_footer pg with Some _ => true | None => false end)
       (match page_footer pg with Some t => t | None => [] end))
    0 false [].

(** *** State and exceptions *)

Inductive Res (A : Type) : Type :=
  | Ok (a : A) (s : State)
  | Raise (e : Error) (s : State).

Arguments Raise {A} e s.

Definition M (A : Type) : Type := State -> Res A.

Definition ret {A} (a : A) : M A := fun s => Ok a s.

Definition bind {A B} (c : M A) (k : A -> M B) : M B :=
  fun s => match c s with
           | Ok a s' => k a s'
           | Raise e s' => Raise e s'
           end.

Definition throw {A} (e : Error) : M A := fun s => Raise e s.

Definition modify (f : State -> State) : M unit := fun s => Ok tt (f s).

Notation "c1 ;; c2" := (bind c1 (fun _ => c2))
  (at level 61, right associativity).

(** The state in which a handler stops, by return or by exception. *)
Definition state_of {A} (r : Res A) : State :=
  match r with
  | Ok _ s => s
  | Raise _ s => s
  end.

Definition returns {A} (r : Res A) : bool :=
  match r with
  | Ok _ _ => true
  | Raise _ _ => false
  end.

(** *** Assignments *)

Definition set_PRODUCTS (ps : list Product) (s : State) : State :=
  mkState ps (rendered s) (initialized s) (grid s) (footerEl s) (dom s)
          (timers s) (scroll_listener s) (console s).

Definition set_rendered (r : nat) (s : State) : State :=
  mkState (PRODUCTS s) r (initialized s) (grid s) (footerEl s) (dom s)
          (timers s) (scroll_listener s) (console s).

Definition set_initialized (b : bool) (s : State) : State :=
  mkState (PRODUCTS s) (rendered s) b (grid s) (footerEl s) (dom s)
          (timers s) (scroll_listener s) (console s).

Definition set_grid (b : bool) (s : State) : State :=
  mkState (PRODUCTS s) (rendered s) (initialized s) b (footerEl s) (dom s)
          (timers s) (scroll_listener s) (console s).

Definition set_footerEl (b : bool) (s : State) : State :=
  mkState (PRODUCTS s) (rendered s) (initialized s) (grid s) b (dom s)
          (timers s) (scroll_listener s) (console s).

Definition set_dom (d : Dom) (s : State) : State :=
  mkState (PRODUCTS s) (rendered s) (initialized s) (grid s) (footerEl s) d
          (timers s) (scroll_listener s) (console s).

Definition set_timers (n : nat) (s : State) : State :=
  mkState (PRODUCTS s) (rendered s) (initialized s) (grid s) (footerEl s)
          (dom s) n (scroll_listener s) (console s).

Definition set_scroll_listener (b : bool) (s : State) : State :=
  mkState (PRODUCTS s) (rendered s) (initialized s) (grid s) (footerEl s)
          (dom s) (timers s) b (console s).

Definition console_error (e : Error) (s : State) : State :=
  mkState (PRODUCTS s) (rendered s) (initialized s) (grid s) (footerEl s)
          (dom s) (timers s) (scroll_listener s) (console s ++ [e]).

Definition set_hidden (b : bool) (d : Dom) : Dom :=
  mkDom (view_exists d) b (main_exists d) (main_children d)
        (footer_exists d) (footer_text d).

Definition set_main (l : list Node) (d : Dom) : Dom :=
  mkDom (view_exists d) (view_hidden d) true l
        (footer_exists d) (footer_text d).

Definition set_children (l : list Node) (d : Dom) : Dom :=
  mkDom (view_exists d) (view_hidden d) (main_exists d) l
        (footer_exists d) (footer_text d).

Definition set_footer_text (t : jsstring) (d : Dom) : Dom :=
  mkDom (view_exists d) (view_hidden d) (main_exists d) (main_children d)
        (footer_exists d) t.

Definition set_footer (t : jsstring) (d : Dom) : Dom :=
  mkDom (view_exists d) (view_hidden d) (main_exists d) (main_children d)
        true t.

(** *** The renderer *)

Section Renderer.
Context `{Host}.

(** [grid.appendChild(createCard(PRODUCTS[i]))]: reading [appendChild]
    from an undefined [grid] throws before the card is built. *)
Definition append_card (i : nat) : M unit :=
  fun s =>
    if grid s then
      match nth_error (PRODUCTS s) i with
      | Some p =>
          Ok tt (set_dom (set_children (main_children (dom s)
                                          ++ [CardNode (createCard p)])
                                       (dom s)) s)
      | None => Raise TypeError s
      end
    else Raise TypeError s.

(** [for (let i = from; i < from + count; i++) body(i)] *)
Fixpoint for_range (from count : nat) (body : nat -> M unit) : M unit :=
  match count with
  | O => ret tt
  | S count' => body from ;; for_range (S from) count' body
  end.

Definition status_line (r n : nat) : jsstring :=
  js "Displaying " ++ toLocaleString r ++ js " of " ++ toLocaleString n
     ++ js " total items.".

Definition renderMore : M unit :=
  fun s =>
    if (List.length (PRODUCTS s) <=? rendered s)%nat then Ok tt s
    else
      let end_ := Nat.min (rendered s + BATCH_SIZE) (List.length (PRODUCTS s)) in
      (for_range (rendered s) (end_ - rendered s) append_card ;;
       modify (set_rendered end_) ;;
       fun s' =>
         if footerEl s' then
           Ok tt (set_dom (set_footer_text
                             (status_line (rendered s')
                                          (List.length (PRODUCTS s')))
                             (dom s')) s')
         else Ok tt s') s.

(** The cards of a list of records, and the state a batch leaves behind
    when the grid is there: the cards of the next records appended, the
    cursor at the end of the batch, the footer rewritten when there is
    one. *)
Definition cards (ps : list Product) : list Node :=
  map (fun p => CardNode (createCard p)) ps.

Definition batch_end (s : State) : nat :=
  Nat.min (rendered s + BATCH_SIZE) (List.length (PRODUCTS s)).

Definition after_batch (s : State) : State :=
  let d1 := set_children
              (main_children (dom s)
                 ++ cards (firstn (batch_end s - rendered s)
                                  (skipn (rendered s) (PRODUCTS s))))
              (dom s) in
  let d2 := if footerEl s
            then set_footer_text (status_line (batch_end s)
                                              (List.length (PRODUCTS s))) d1
            else d1 in
  set_rendered (batch_end s) (set_dom d2 s).

Definition nearBottom (w : Window) : bool :=
  let y := if (scrollY w =? 0)%Z then pageYOffset w else scrollY w in
  let viewportH := if (innerHeight w =? 0)%Z then clientHeight w
                   else innerHeight w in
  (scrollHeight w - 600 <? y + viewportH)%Z.

Definition onScroll (w : Window) : M unit :=
  fun s =>
    if negb (view_exists (dom s)) || view_hidden (dom s) then Ok tt s
    else if nearBottom w then renderMore s
    else Ok tt s.

Definition initDataView : M unit :=
  fun s =>
    if initialized s then Ok tt s
    else if negb (view_exists (dom s)) then Ok tt s
    else
      (modify (fun s => set_dom (set_main [] (dom s)) (set_grid true s)) ;;
       modify (fun s =>
                 set_footerEl true
                   (if footer_exists (dom s) then s
                    else set_dom (set_footer [] (dom s)) s)) ;;
       renderMore ;;
       modify (set_initialized true)) s.

(** [window.navigate(page)]: the navigation of the page itself runs first;
    [shown] is what it does to the [hidden] class of the view
    ([Some true]: shows it, [Some false]: hides it, [None]: nothing). *)
Definition navigate (page : jsstring) (shown : option bool) : M unit :=
  fun s =>
    let s1 := match shown with
              | Some b => set_dom (set_hidden (negb b) (dom s)) s
              | None => s
              end in
    if jseqb page (js "data") then Ok tt (set_timers (S (timers s1)) s1)
    else Ok tt s1.

(** The handler of [load], from the point where [loadProducts] settles. *)
Definition onLoad (f : Fetch) : M unit :=
  (modify (fun s =>
             match loadProducts f with
             | inr ps => set_PRODUCTS ps s
             | inl err => set_PRODUCTS [] (console_error err s)
             end) ;;
   (fun s =>
      if view_exists (dom s) && negb (view_hidden (dom s))
      then initDataView s else Ok tt s) ;;
   modify (set_scroll_listener true)).

(** *** The handlers as state functions

    What the handlers leave behind, written without the monad: the state
    after [renderMore] when it returns, the two elements bound by
    [initDataView], the state after [initDataView], and the records
    assigned by the handler of [load]. *)

Definition next_batch (s : State) : State :=
  if grid s && (rendered s <? List.length (PRODUCTS s)) then after_batch s
  else s.

Definition bind_elements (s : State) : State :=
  let s1 := set_dom (set_main [] (dom s)) (set_grid true s) in
  set_footerEl true
    (if footer_exists (dom s1) then s1
     else set_dom (set_footer [] (dom s1)) s1).

Definition activated (s : State) : State :=
  if initialized s || negb (view_exists (dom s)) then s
  else set_initialized true (next_batch (bind_elements s)).

Definition loaded (f : Fetch) (s : State) : State :=
  match loadProducts f with
  | inr ps => set_PRODUCTS ps s
  | inl err => set_PRODUCTS [] (console_error err s)
  end.

(** *** The events of a session *)

Inductive Event : Type :=
  | Load (f : Fetch)
  | Navigate (page : jsstring) (shown : option bool)
  | Timeout
  | Scroll (w : Window).

(** The browser delivers [load] once, runs a timer callback for a pending
    timer only, and calls [onScroll] once it is registered. *)
Definition enabled (ev : Event) (s : State) : bool :=
  match ev with
  | Load _ => negb (scroll_listener s)
  | Navigate _ _ => true
  | Timeout => (0 <? timers s)%nat
  | Scroll _ => scroll_listener s
  end.

Definition dispatch (ev : Event) : M unit :=
  match ev with
  | Load f => onLoad f
  | Navigate page shown => navigate page shown
  | Timeout => modify (fun s => set_timers (pred (timers s)) s) ;; initDataView
  | Scroll w => onScroll w
  end.

(** One event: an exception that leaves a handler is reported by the
    browser and the session goes on from the state reached. *)
Definition step (s : State) (ev : Event) : State := state_of (dispatch ev s).

Definition run (s : State) (evs : list Event) : State := fold_left step evs s.

(** A session: the events are enabled one after the other. *)
Fixpoint session (s : State) (evs : list Event) : bool :=
  match evs with
  | [] => true
  | ev :: rest => enabled ev s && session (step s ev) rest
  end.

(** Whether every handler of the session returns, none throwing. *)
Fixpoint all_return (s : State) (evs : list Event) : bool :=
  match evs with
  | [] => true
  | ev :: rest => returns (dispatch ev s) && all_return (step s ev) rest
  end.

(** What holds of the variables of the script between two handlers and
    inside them: the cursor is within the records; the grid is bound
    exactly when the latch is set; before that the cursor is 0, after that
    the grid holds the cards of the records up to the cursor. *)
Definition coherent (s : State) : Prop :=
  rendered s <= List.length (PRODUCTS s) /\
  grid s = initialized s /\
  (grid s = false -> rendered s = 0) /\
  (grid s = true ->
   main_children (dom s) = cards (firstn (rendered s) (PRODUCTS s))).

(** Between two handlers, moreover, there are records only once [load]
    has been handled. *)
Definition consistent (s : State) : Prop :=
  coherent s /\ (scroll_listener s = false -> PRODUCTS s = []).

(** What holds in a session whose catalog did not load: there are no
    records, the cursor is 0, the grid is empty or as the page had it, and
    the text of the footer is the one the page had, empty when the page
    had no footer. *)
Definition untouched (pg : Page) (s : State) : Prop :=
  PRODUCTS s = [] /\ rendered s = 0 /\
  (main_children (dom s) = []
   \/ main_children (dom s) = main_children (dom (initial pg))) /\
  footer_text (dom s) = footer_text (dom (initial pg)) /\
  (footer_exists (dom s) = false -> footer_text (dom s) = []).

End Renderer.

(** ** A small host

    An instance of [Host] on which the examples run.  Its URL parser accepts
    [scheme://rest] with a scheme of letters, cuts the fragment at the first
    [#] and the query at the first [?], and reads the query as pairs
    separated by [&] and split at the first [=]; it does no decoding.  Its
    case mappings are the ASCII ones and its counts are printed in groups of
    three digits. *)

Definition is_letter (c : char) : bool :=
  (((65 <=? c) && (c <=? 90)) || ((97 <=? c) && (c <=? 122)))%N.

Definition sample_pair (piece : jsstring) : jsstring * jsstring :=
  let (n, v) := span_not (ch "=") piece in (n, tl v).

Definition sample_URL_parse (s : jsstring) : option URL :=
  let (before_hash, hash) := span_not (ch "#") s in
  let (base, query) := span_not (ch "?") before_hash in
  let (scheme, rest) := span_not (ch ":") base in
  match scheme, rest with
  | _ :: _, 58%N :: 47%N :: 47%N :: _ :: _ =>
      if forallb is_letter scheme then
        Some (mkURL base
                (map sample_pair (filter truthy (split_char (ch "&") (tl query))))
                hash)
      else None
  | _, _ => None
  end.

Fixpoint sample_query (l : list (jsstring * jsstring)) : jsstring :=
  match l with
  | [] => []
  | [p] => fst p ++ ch "=" :: snd p
  | p :: r => fst p ++ ch "=" :: snd p ++ ch "&" :: sample_query r
  end.

Definition sample_URL_href (u : URL) : jsstring :=
  url_base u
  ++ (match searchParams u with [] => [] | _ :: _ => ch "?" :: sample_query (searchParams u) end)
  ++ url_hash u.

Fixpoint group3 (reversed : jsstring) (k : nat) : jsstring :=
  match reversed with
  | [] => []
  | d :: r => if (k =? 3)%nat then COMMA :: d :: group3 r 1
              else d :: group3 r (S k)
  end.

Definition sample_toLocaleString (n : nat) : jsstring :=
  rev (group3 (rev (digits (Z.of_nat n))) 0).

Definition sample_host : Host :=
  {| URL_parse := sample_URL_parse;
     URL_href := sample_URL_href;
     toLowerCase := map lower_ascii;
     toUpperCase := map upper_ascii;
     toLocaleString := sample_toLocaleString;
     toLowerCase_ascii := fun s _ => eq_refl;
     toUpperCase_ascii := fun s _ => eq_refl |}.

(** ** Building catalogs

    What a producer of the catalog writes: lines joined by a line break, and
    a row with all four segments in the first column. *)

(** [ls.join(sep)] *)
Fixpoint join (sep : jsstring) (ls : list jsstring) : jsstring :=
  match ls with
  | [] => []
  | [l] => l
  | l :: rest => l ++ sep ++ join sep rest
  end.

(** [[n](l){p}%c%] *)
Definition first_column (n l p c : jsstring) : jsstring :=
  LBRACKET :: n ++ RBRACKET :: LPAREN :: l ++ RPAREN :: LBRACE :: p
           ++ RBRACE :: PERCENT :: c ++ [PERCENT].

(** None of the characters [cs] occurs in [s]. *)
Definition avoids (s : jsstring) (cs : list char) : Prop :=
  forall x, In x cs -> ~ In x s.

(** ** Sample inputs *)

(** A row with every segment, and a catalog with a header line, that row, a
    row of two columns and the row again behind a carriage return. *)
Definition sample_row : jsstring :=
  js "[Desk Lamp](https://x.com/p?ref=OLD&x=1){$1,234.5}%Electronics%"
  ++ TAB :: js "ignored" ++ TAB :: js " https://img.example/lamp.png ".

Definition sample_text : jsstring :=
  js "name" ++ TAB :: js "other" ++ TAB :: js "image" ++ LF :: sample_row
  ++ LF :: js "[Chair]" ++ TAB :: js "two columns" ++ CR :: LF :: sample_row.

(** A page whose view is hidden and empty, a window scrolled to the bottom,
    and a session in which the catalog is loaded and the view opened. *)
Definition sample_page : Page := mkPage true true None None.

Definition sample_window : Window := mkWindow 0 0 800 800 1000.

Definition sample_opening : list (Event) :=
  [Load (Response true (Some sample_text)); Navigate (js "data") (Some true)].

(** The view open and initialised on fifty records, none rendered yet. *)
Definition sample_fifty : State :=
  mkState (repeat (mkProduct 1 (js "Lamp") [] (js "$0.00") [] []) 50)
          0 true true true (mkDom true false true [] true []) 0 true [].


(** A session that opens the view, scrolls, and opens the view again. *)
Definition sample_visit : list Event :=
  sample_opening ++ [Timeout; Scroll sample_window;
                     Navigate (js "data") (Some true); Timeout].

(** A session in which the fetch is rejected. *)
Definition sample_offline : list Event :=
  [Load Rejected; Navigate (js "data") (Some true); Timeout;
   Scroll sample_window].

(** A catalog of one row without link, price and category. *)
Definition plain_text : jsstring := js "[Lamp]" ++ [TAB; TAB].

(* ===================================================================== *)
(** * Part II: properties                                                 *)
(* ===================================================================== *)

(** ** Strings *)

Lemma jseqb_eq (a b : jsstring) : jseqb a b = true <-> a = b.
Proof.
  revert b; induction a as [|x a IH]; intros [|y b]; simpl;
    try (split; [discriminate | congruence]); try tauto.
  rewrite andb_true_iff, N.eqb_eq, IH.
  split; [intros [-> ->]; reflexivity | intros E; inversion E; auto].
Qed.

Lemma jseqb_refl (a : jsstring) : jseqb a a = true.
Proof. apply jseqb_eq; reflexivity. Qed.

Lemma truthy_false (s : jsstring) : truthy s = false <-> s = [].
Proof. destruct s; simpl; split; congruence. Qed.

Lemma trimStart_split (s : jsstring) :
  exists ws, s = ws ++ trimStart s /\ Forall (fun c => is_space c = true) ws.
Proof.
  induction s as [|c r [ws [E F]]]; simpl.
  - exists []; auto.
  - destruct (is_space c) eqn:Hc.
    + exists (c :: ws); split; [simpl; congruence | constructor; auto].
    + exists []; auto.
Qed.

Lemma trimStart_head (s : jsstring) c r :
  trimStart s = c :: r -> is_space c = false.
Proof.
  induction s as [|x s IH]; simpl; [discriminate|].
  destruct (is_space x) eqn:Hx; auto.
  intros E; inversion E; subst; assumption.
Qed.

Lemma trimStart_spaces (ws s : jsstring) :
  Forall (fun c => is_space c = true) ws -> trimStart (ws ++ s) = trimStart s.
Proof.
  induction 1 as [|c ws Hc _ IH]; simpl; [reflexivity|].
  rewrite Hc; exact IH.
Qed.

Lemma trimStart_idem (s : jsstring) : trimStart (trimStart s) = trimStart s.
Proof.
  destruct (trimStart s) as [|c r] eqn:E; [reflexivity|].
  simpl. rewrite (trimStart_head _ E). reflexivity.
Qed.


(** *** Splitting into lines *)




(** *** The capture groups *)


Lemma span_not_app (stop : char) (seg post : jsstring) :
  ~ In stop seg -> span_not stop (seg ++ stop :: post) = (seg, stop :: post).
Proof.
  induction seg as [|c seg IH]; simpl; intros Hn.
  - rewrite N.eqb_refl; reflexivity.
  - destruct (N.eqb_spec c stop) as [-> | Hc]; [tauto|].
    rewrite IH by tauto. reflexivity.
Qed.


(** ** The [ref] parameter *)

Lemma named_eq (n : jsstring) (p : jsstring * jsstring) :
  named n p = true <-> fst p = n.
Proof. apply jseqb_eq. Qed.

Lemma filter_named_none (n : jsstring) (l : list (jsstring * jsstring)) :
  existsb (named n) l = false -> filter (named n) l = [].
Proof.
  induction l as [|p l IH]; simpl; [reflexivity|].
  destruct (named n p); simpl; [discriminate | exact IH].
Qed.

Lemma filter_others_id (n : jsstring) (l : list (jsstring * jsstring)) :
  existsb (named n) l = false -> filter (fun q => negb (named n q)) l = l.
Proof.
  induction l as [|p l IH]; simpl; [reflexivity|].
  destruct (named n p); simpl; [discriminate | intros E; f_equal; auto].
Qed.

Lemma filter_named_others (n : jsstring) (l : list (jsstring * jsstring)) :
  filter (named n) (filter (fun q => negb (named n q)) l) = [].
Proof.
  induction l as [|p l IH]; simpl; [reflexivity|].
  destruct (named n p) eqn:E; simpl; [exact IH | rewrite E; exact IH].
Qed.

Lemma filter_others_idem (n : jsstring) (l : list (jsstring * jsstring)) :
  filter (fun q => negb (named n q)) (filter (fun q => negb (named n q)) l)
  = filter (fun q => negb (named n q)) l.
Proof.
  induction l as [|p l IH]; simpl; [reflexivity|].
  destruct (named n p) eqn:E; simpl; [exact IH | rewrite E; simpl; f_equal; exact IH].
Qed.

Lemma named_set (n v : jsstring) (p : jsstring * jsstring) :
  named n (fst p, v) = named n p.
Proof. reflexivity. Qed.

Lemma set_first_named (n v : jsstring) (l : list (jsstring * jsstring)) :
  existsb (named n) l = true -> filter (named n) (set_first n v l) = [(n, v)].
Proof.
  induction l as [|p l IH]; cbn [existsb set_first]; [discriminate|].
  destruct (named n p) eqn:E; cbn [orb filter].
  - intros _. rewrite named_set, E, filter_named_others.
    apply named_eq in E. rewrite E. reflexivity.
  - rewrite E. exact IH.
Qed.

Lemma set_first_others (n v : jsstring) (l : list (jsstring * jsstring)) :
  filter (fun q => negb (named n q)) (set_first n v l)
  = filter (fun q => negb (named n q)) l.
Proof.
  induction l as [|p l IH]; cbn [set_first]; [reflexivity|].
  destruct (named n p) eqn:E; cbn [filter].
  - rewrite named_set, E. cbn [negb]. apply filter_others_idem.
  - rewrite E; cbn [negb]. f_equal. exact IH.
Qed.

Lemma set_first_at (n v : jsstring) (pre post : list (jsstring * jsstring)) p :
  existsb (named n) pre = false -> named n p = true ->
  set_first n v (pre ++ p :: post)
  = pre ++ (n, v) :: filter (fun q => negb (named n q)) post.
Proof.
  induction pre as [|q pre IH]; simpl; intros Hpre Hp.
  - rewrite Hp. apply named_eq in Hp. rewrite Hp. reflexivity.
  - destruct (named n q); simpl in *; [discriminate|].
    f_equal. apply IH; assumption.
Qed.

Lemma params_set_named (n v : jsstring) (l : list (jsstring * jsstring)) :
  filter (named n) (params_set n v l) = [(n, v)].
Proof.
  unfold params_set. destruct (existsb (named n) l) eqn:E.
  - apply set_first_named; assumption.
  - rewrite filter_app, filter_named_none by assumption. simpl.
    unfold named; simpl. rewrite jseqb_refl. reflexivity.
Qed.

Lemma params_set_others (n v : jsstring) (l : list (jsstring * jsstring)) :
  filter (fun q => negb (named n q)) (params_set n v l)
  = filter (fun q => negb (named n q)) l.
Proof.
  unfold params_set. destruct (existsb (named n) l) eqn:E.
  - apply set_first_others.
  - rewrite filter_app. simpl. unfold named at 2; simpl.
    rewrite jseqb_refl. simpl. apply app_nil_r.
Qed.

Lemma params_set_present (n v : jsstring) (pre post : list (jsstring * jsstring)) p :
  existsb (named n) pre = false -> named n p = true ->
  params_set n v (pre ++ p :: post)
  = pre ++ (n, v) :: filter (fun q => negb (named n q)) post.
Proof.
  intros Hpre Hp. unfold params_set.
  rewrite existsb_app; simpl. rewrite Hp, orb_true_r.
  apply set_first_at; assumption.
Qed.

Section LoaderProperties.
Context `{Host}.


Lemma parseRow_id (line : jsstring) (i : nat) (p : Product) :
  parseRow line i = Some p -> id p = (i + 1)%nat.
Proof.
  unfold parseRow.
  destruct (List.length (split_char TAB line) <? 3)%nat; [discriminate|].
  match goal with |- context [negb (truthy ?n)] => destruct (truthy n) end;
    simpl; [|discriminate].
  intros E; inversion E; reflexivity.
Qed.

Lemma parseRow_accepted (line : jsstring) (i : nat) :
  parseRow line i = None <-> accepted line = false.
Proof.
  unfold parseRow, accepted, row_name.
  destruct (Nat.ltb_spec (List.length (split_char TAB line)) 3) as [Hl | Hl].
  - replace (3 <=? List.length (split_char TAB line))%nat with false
      by (symmetry; apply Nat.leb_gt; lia).
    simpl; tauto.
  - replace (3 <=? List.length (split_char TAB line))%nat with true
      by (symmetry; apply Nat.leb_le; lia).
    simpl.
    match goal with |- context [negb (truthy ?n)] => destruct (truthy n) end;
      simpl; split; congruence.
Qed.

Lemma accepted_false (line : jsstring) :
  accepted line = false <->
  (List.length (split_char TAB line) < 3)%nat \/ row_name line = [].
Proof.
  unfold accepted. rewrite andb_false_iff, Nat.leb_gt, truthy_false.
  tauto.
Qed.

(** The loop appends to [out] one row per accepted line, numbered on from
    the length of [out]. *)
Lemma parse_rows_spec (lines : list jsstring) :
  forall out, exists more,
    parse_rows lines out = out ++ more /\
    List.length more = List.length (filter accepted lines) /\
    map id more = seq (List.length out + 1) (List.length more) /\
    forall k line,
      nth_error (filter accepted lines) k = Some line ->
      exists p, nth_error more k = Some p /\
                parseRow line (List.length out + k) = Some p.
Proof.
  induction lines as [|line rest IH]; intros out; simpl.
  - exists []. rewrite app_nil_r. repeat split; auto.
    intros [|k] ? E; discriminate.
  - destruct (parseRow line (List.length out)) as [row|] eqn:Hrow.
    + assert (Hacc : accepted line = true).
      { destruct (accepted line) eqn:E; [reflexivity|].
        apply parseRow_accepted with (i := List.length out) in E. congruence. }
      rewrite Hacc.
      destruct (IH (out ++ [row])) as [more [E [Hlen [Hids Hnth]]]].
      rewrite length_app in Hids, Hnth; simpl in Hids, Hnth.
      exists (row :: more). repeat split.
      * rewrite E, <- app_assoc. reflexivity.
      * simpl; congruence.
      * simpl. rewrite (parseRow_id _ _ Hrow), Hids.
        f_equal. f_equal. lia.
      * intros [|k] l E1; simpl in E1.
        -- inversion E1; subst l. exists row. rewrite Nat.add_0_r. auto.
        -- destruct (Hnth k l E1) as [p [Hp1 Hp2]]. exists p. split; auto.
           rewrite <- Hp2. f_equal. lia.
    + assert (Hacc : accepted line = false)
        by (apply parseRow_accepted with (i := List.length out); assumption).
      rewrite Hacc. apply IH.
Qed.

Lemma parse_text_data_lines (text : jsstring) :
  parse_text text = parse_rows (data_lines text) [].
Proof.
  unfold parse_text, data_lines.
  destruct (filter truthy (split_lines text)) as [|first rest]; [reflexivity|].
  destruct (starts_with_bracket first); reflexivity.
Qed.

(** C3. The records of [loadProducts] are the accepted rows in order, and
    their ids are 1, 2, ..., k without a gap: the k-th accepted row gets
    id k whatever was rejected before it.  A row is rejected exactly when
    it has fewer than three tab-delimited columns or its bracketed name is
    missing or empty after trimming. *)
Theorem loadProducts_ids_dense (f : Fetch) (out : list Product) :
  loadProducts f = inr out ->
  exists text,
    f = Response true (Some text) /\
    map id out = seq 1 (List.length out) /\
    List.length out = List.length (filter accepted (data_lines text)) /\
    (forall k line,
        nth_error (filter accepted (data_lines text)) k = Some line ->
        exists p, nth_error out k = Some p /\ parseRow line k = Some p /\
                  id p = (k + 1)%nat) /\
    (forall line i,
        parseRow line i = None <->
        (List.length (split_char TAB line) < 3)%nat \/ row_name line = []).
Proof.
  destruct f as [|[|] [text|]]; simpl; try discriminate.
  intros E; inversion E; subst out; clear E.
  exists text. rewrite parse_text_data_lines.
  destruct (parse_rows_spec (data_lines text) []) as [more [E [Hlen [Hids Hnth]]]].
  simpl in *. rewrite E.
  repeat split; auto.
  - intros k line Hk. destruct (Hnth k line Hk) as [p [Hp1 Hp2]].
    exists p. repeat split; auto. apply (parseRow_id _ _ Hp2).
  - intros E1. apply accepted_false, parseRow_accepted with (i := i); assumption.
  - intros E1. apply parseRow_accepted, accepted_false; assumption.
Qed.


(** C4. When the link parses as a URL, [updateRef] returns the serialised
    URL whose parameter list has exactly one [ref], with the value
    100201678: in the place of the first [ref] when there was one, at the
    end otherwise; every other parameter is kept, in order.  When the link
    does not parse, it is returned as it is.  The row parser rewrites the
    link only when it is not empty. *)
Theorem updateRef_sets_ref (l : jsstring) :
  (forall u, URL_parse l = Some u ->
     let ps := params_set (js "ref") (js "100201678") (searchParams u) in
     updateRef l = URL_href (mkURL (url_base u) ps (url_hash u)) /\
     filter (named (js "ref")) ps = [(js "ref", js "100201678")] /\
     filter (fun q => negb (named (js "ref") q)) ps
     = filter (fun q => negb (named (js "ref") q)) (searchParams u) /\
     (existsb (named (js "ref")) (searchParams u) = false ->
      ps = searchParams u ++ [(js "ref", js "100201678")]) /\
     (forall pre p post,
         searchParams u = pre ++ p :: post ->
         existsb (named (js "ref")) pre = false ->
         named (js "ref") p = true ->
         ps = pre ++ (js "ref", js "100201678")
                  :: filter (fun q => negb (named (js "ref") q)) post)) /\
  (URL_parse l = None -> updateRef l = l) /\
  (forall line i p,
      parseRow line i = Some p ->
      let raw := trim (capture_or_empty LPAREN RPAREN
                         (trim (nth 0 (split_char TAB line) []))) in
      link p = if truthy raw then updateRef raw else []).
Proof.
  split; [|split].
  - intros u Hu ps. unfold updateRef. rewrite Hu. fold ps.
    split; [reflexivity|].
    split; [apply params_set_named|].
    split; [apply params_set_others|].
    split.
    + intros E. unfold ps, params_set. rewrite E. reflexivity.
    + intros pre p post E Hpre Hp. unfold ps. rewrite E.
      apply params_set_present; assumption.
  - intros E. unfold updateRef. rewrite E. reflexivity.
  - intros line i p. unfold parseRow.
    destruct (List.length (split_char TAB line) <? 3)%nat; [discriminate|].
    match goal with |- context [negb (truthy ?n)] => destruct (truthy n) end;
      simpl; [|discriminate].
    intros E; inversion E; simpl.
    match goal with |- context [truthy ?n] => destruct n end; reflexivity.
Qed.

End LoaderProperties.

Section CategoryProperties.
Context `{Host}.



End CategoryProperties.

(** *** The loader on the sample catalog *)

Lemma loadProducts_ids_dense_witness :
  loadProducts (H := sample_host) (Response true (Some sample_text))
  = inr (parse_text (H := sample_host) sample_text) /\
  map id (parse_text (H := sample_host) sample_text) = [1; 2]%nat.
Proof.
  split; [reflexivity|].
  destruct (loadProducts_ids_dense (H := sample_host)
              (Response true (Some sample_text)) eq_refl)
    as [text [_ [Hids _]]].
  rewrite Hids. vm_compute. reflexivity.
Defined.

Lemma updateRef_sets_ref_witness :
  URL_parse (Host := sample_host) (js "https://x.com/p?ref=OLD&x=1")
  = Some (mkURL (js "https://x.com/p")
                [(js "ref", js "OLD"); (js "x", js "1")] []) /\
  updateRef (H := sample_host) (js "https://x.com/p?ref=OLD&x=1")
  = js "https://x.com/p?ref=100201678&x=1" /\
  URL_parse (Host := sample_host) (js "not a url") = None /\
  updateRef (H := sample_host) (js "not a url") = js "not a url".
Proof.
  pose proof (updateRef_sets_ref (H := sample_host)
                (js "https://x.com/p?ref=OLD&x=1")) as [Hok _].
  pose proof (updateRef_sets_ref (H := sample_host) (js "not a url"))
    as [_ [Hfail _]].
  split; [vm_compute; reflexivity|].
  split; [|split; [vm_compute; reflexivity | apply Hfail; vm_compute; reflexivity]].
  destruct (Hok _ eq_refl) as [E _]. rewrite E. vm_compute. reflexivity.
Defined.


(** ** Trimming *)

Lemma trimStart_fixed (s : jsstring) :
  match s with [] => True | c :: _ => is_space c = false end ->
  trimStart s = s.
Proof. destruct s as [|c r]; simpl; [reflexivity | intros ->; reflexivity]. Qed.

Lemma trimEnd_prefix (s : jsstring) : exists ws, s = trimEnd s ++ ws.
Proof.
  unfold trimEnd. destruct (trimStart_split (rev s)) as [ws [E _]].
  exists (rev ws). rewrite <- rev_app_distr, <- E, rev_involutive. reflexivity.
Qed.

Lemma trimEnd_idem (s : jsstring) : trimEnd (trimEnd s) = trimEnd s.
Proof. unfold trimEnd. rewrite rev_involutive, trimStart_idem. reflexivity. Qed.

Lemma trim_idem (s : jsstring) : trim (trim s) = trim s.
Proof.
  unfold trim. set (t := trimStart s).
  assert (Ht : trimStart (trimEnd t) = trimEnd t).
  { apply trimStart_fixed.
    destruct (trimEnd_prefix t) as [ws E].
    destruct (trimEnd t) as [|c r]; [exact I|].
    apply (trimStart_head s (r := r ++ ws)). fold t. rewrite E at 1. reflexivity. }
  rewrite Ht. apply trimEnd_idem.
Qed.

Lemma stripped_trimmed (raw : jsstring) : trim (stripped raw) = stripped raw.
Proof. apply trim_idem. Qed.

(** ** Numbers *)

Open Scope Z_scope.

Lemma digit_in_range (base : Z) (c : char) (d : Z) :
  digit_in base c = Some d -> 0 <= d < base.
Proof.
  unfold digit_in.
  destruct ((48 <=? Z.of_N c) && (Z.of_N c <=? 57)) eqn:E1;
    [|destruct ((97 <=? Z.of_N c) && (Z.of_N c <=? 102)) eqn:E2;
      [|destruct ((65 <=? Z.of_N c) && (Z.of_N c <=? 70)) eqn:E3]];
    match goal with |- context [?x <? base] => destruct (Z.ltb_spec x base) end;
    intros E; inversion E; subst; clear E; lia.
Qed.

Lemma read_digits_nonneg (base : Z) (s : jsstring) :
  forall acc len v n r,
    0 <= base -> 0 <= acc -> 0 <= len ->
    read_digits base acc len s = (v, n, r) -> 0 <= v /\ 0 <= n.
Proof.
  induction s as [|c s IH]; simpl; intros acc len v n r Hb Ha Hl E.
  - inversion E; subst; auto.
  - destruct (digit_in base c) as [d|] eqn:Hd.
    + apply digit_in_range in Hd.
      apply (IH _ _ _ _ _ Hb) in E; [assumption | nia | lia].
    + inversion E; subst; auto.
Qed.

Lemma round_ratio_nonneg (neg neg' : bool) (p q m e : Z) :
  0 <= p -> 0 < q -> round_ratio neg p q = Fin neg' m e -> 0 <= m.
Proof.
  intros Hp Hq. unfold round_ratio.
  destruct (p =? 0); [intros E; inversion E; lia|].
  set (ex := Z.max (floor_log2_ratio p q - 52) (-1074)).
  set (num := if 0 <=? ex then p else p * 2 ^ (- ex)).
  set (den := if 0 <=? ex then q * 2 ^ ex else q).
  assert (Hnum : 0 <= num).
  { unfold num. destruct (0 <=? ex); [assumption|].
    apply Z.mul_nonneg_nonneg; [assumption | apply Z.pow_nonneg; lia]. }
  assert (Hden : 0 < den).
  { unfold den. destruct (Z.leb_spec 0 ex); [|assumption].
    apply Z.mul_pos_pos; [assumption | apply Z.pow_pos_nonneg; lia]. }
  assert (Hm : 0 <= num / den) by (apply Z.div_pos; assumption).
  cbv zeta.
  set (m1 := if 2 * (num mod den) <? den then num / den
             else if den <? 2 * (num mod den) then num / den + 1
             else if Z.even (num / den) then num / den else num / den + 1).
  assert (Hm1 : 0 <= m1).
  { unfold m1. destruct (2 * (num mod den) <? den); [assumption|].
    destruct (den <? 2 * (num mod den)); [lia|].
    destruct (Z.even (num / den)); lia. }
  destruct (m1 =? 0); [intros E; inversion E; lia|].
  destruct (m1 =? 2 ^ 53);
    match goal with |- context [971 <? ?x] => destruct (971 <? x) end;
    intros E; inversion E; subst; lia.
Qed.

Lemma parse_decimal_nonneg (s : jsstring) (d x : Z) :
  parse_decimal s = Some (d, x) -> 0 <= d.
Proof.
  unfold parse_decimal.
  destruct (read_digits 10 0 0 s) as [[ip ilen] r1] eqn:E1.
  apply read_digits_nonneg in E1; try lia. destruct E1 as [Hip Hil].
  assert (Hfrac : forall d' flen r2,
             match r1 with
             | c :: r => if (c =? DOT)%N then read_digits 10 ip 0 r
                         else (ip, 0, r1)
             | [] => (ip, 0, r1)
             end = (d', flen, r2) -> 0 <= d').
  { intros d' flen r2. destruct r1 as [|c r].
    - intros E; inversion E; subst; assumption.
    - destruct (c =? DOT)%N.
      + intros E. apply read_digits_nonneg in E; try lia.
      + intros E; inversion E; subst; assumption. }
  destruct (match r1 with
            | c :: r => if (c =? DOT)%N then read_digits 10 ip 0 r
                        else (ip, 0, r1)
            | [] => (ip, 0, r1)
            end) as [[d' flen] r2] eqn:E2.
  specialize (Hfrac _ _ _ eq_refl).
  destruct (ilen + flen =? 0); [discriminate|].
  destruct r2 as [|c r3]; [intros E; inversion E; subst; assumption|].
  destruct ((c =? 101)%N || (c =? 69)%N); [|discriminate].
  destruct (parse_exponent r3); [|discriminate].
  intros E; inversion E; subst; assumption.
Qed.

Lemma parse_nondecimal_nonneg (s : jsstring) (v : Z) :
  parse_nondecimal s = Some v -> 0 <= v.
Proof.
  unfold parse_nondecimal.
  destruct s as [|z [|p r]]; try discriminate.
  set (base := if negb (z =? ZERO)%N then 0
               else if ((p =? 120) || (p =? 88))%N then 16
               else if ((p =? 111) || (p =? 79))%N then 8
               else if ((p =? 98) || (p =? 66))%N then 2 else 0).
  assert (Hb : 0 <= base).
  { unfold base. repeat match goal with |- context [if ?b then _ else _] =>
                                          destruct b end; lia. }
  destruct (base =? 0); [discriminate|].
  destruct (read_digits base 0 0 r) as [[v' len] rest] eqn:E.
  apply read_digits_nonneg in E; try lia.
  destruct rest; [|discriminate].
  destruct (0 <? len); [|discriminate].
  intros E'; inversion E'; subst; lia.
Qed.

(** A finite Number read from a string has a significand that is not
    negative. *)
Lemma Number_nonneg (s : jsstring) (neg : bool) (m e : Z) :
  Number s = Fin neg m e -> 0 <= m.
Proof.
  unfold Number. destruct (trim s) as [|c r]; [intros E; inversion E; lia|].
  destruct (parse_nondecimal (c :: r)) as [v|] eqn:Hv.
  - apply parse_nondecimal_nonneg in Hv.
    apply round_ratio_nonneg; [assumption | lia].
  - match goal with |- context [jseqb ?u ?i] => destruct (jseqb u i) end;
      [discriminate|].
    match goal with |- context [parse_decimal ?u] =>
                      destruct (parse_decimal u) as [[d x]|] eqn:Hd end;
      [|discriminate].
    apply parse_decimal_nonneg in Hd. unfold round_decimal.
    destruct (Z.leb_spec 0 x).
    + apply round_ratio_nonneg; [|lia].
      apply Z.mul_nonneg_nonneg; [assumption | apply Z.pow_nonneg; lia].
    + apply round_ratio_nonneg; [assumption|].
      apply Z.pow_pos_nonneg; lia.
Qed.

(** *** Printing digits *)

Lemma digit_char_digit (d : Z) :
  0 <= d < 10 -> is_digit (digit_char d) = true.
Proof.
  intros Hd. unfold is_digit, digit_in, digit_char.
  rewrite Z2N.id by lia.
  replace ((48 <=? 48 + d) && (48 + d <=? 57)) with true
    by (symmetry; apply andb_true_iff; split; apply Z.leb_le; lia).
  replace (48 + d - 48 <? 10) with true by (symmetry; apply Z.ltb_lt; lia).
  reflexivity.
Qed.

Lemma digit_char_value (d : Z) : 0 <= d -> Z.of_N (digit_char d) - 48 = d.
Proof. intros Hd. unfold digit_char. rewrite Z2N.id by lia. lia. Qed.

Lemma digits_fuel_digits (fuel : nat) :
  forall n acc,
    0 <= n -> Forall (fun c => is_digit c = true) acc ->
    Forall (fun c => is_digit c = true) (digits_fuel fuel n acc).
Proof.
  induction fuel as [|fuel IH]; intros n acc Hn Hacc; simpl; [assumption|].
  destruct (Z.ltb_spec n 10).
  - constructor; [apply digit_char_digit; lia | assumption].
  - apply IH.
    + apply Z.div_pos; lia.
    + constructor; [|assumption].
      apply digit_char_digit, Z.mod_pos_bound; lia.
Qed.

Lemma digits_fuel_length (fuel : nat) :
  forall n acc, (List.length acc <= List.length (digits_fuel fuel n acc))%nat.
Proof.
  induction fuel as [|fuel IH]; intros n acc; simpl; [lia|].
  destruct (n <? 10); simpl; [lia|].
  specialize (IH (n / 10) (digit_char (n mod 10) :: acc)). simpl in IH. lia.
Qed.

Lemma digits_fuel_value (fuel : nat) :
  forall n acc,
    0 <= n < 2 ^ Z.of_nat fuel ->
    fold_left (fun a c => a * 10 + (Z.of_N c - 48)) (digits_fuel fuel n acc) 0
    = fold_left (fun a c => a * 10 + (Z.of_N c - 48)) acc n.
Proof.
  induction fuel as [|fuel IH]; intros n acc Hn.
  - simpl in *. replace n with 0 by lia. reflexivity.
  - cbn [digits_fuel]. destruct (Z.ltb_spec n 10).
    + simpl. rewrite digit_char_value by lia. reflexivity.
    + rewrite IH.
      * simpl. rewrite digit_char_value by (apply Z.mod_pos_bound; lia).
        f_equal. pose proof (Z.div_mod n 10). lia.
      * rewrite Nat2Z.inj_succ, Z.pow_succ_r in Hn by lia.
        split; [apply Z.div_pos; lia|].
        apply Z.div_lt_upper_bound; lia.
Qed.

Lemma digits_digits (n : Z) :
  0 <= n -> Forall (fun c => is_digit c = true) (digits n).
Proof. intros Hn. apply digits_fuel_digits; [assumption | constructor]. Qed.

Lemma digits_nonempty (n : Z) : (1 <= List.length (digits n))%nat.
Proof.
  unfold digits; simpl. destruct (n <? 10); simpl; [lia|].
  match goal with |- context [digits_fuel ?f ?a ?b] =>
                    pose proof (digits_fuel_length f a b) as Hl end.
  simpl in Hl. lia.
Qed.

Lemma digits_value (n : Z) : 0 <= n -> decimal_value (digits n) = n.
Proof.
  intros Hn. unfold decimal_value, digits.
  rewrite digits_fuel_value; [reflexivity|].
  split; [assumption|].
  rewrite Nat2Z.inj_succ, Z2Nat.id by apply Z.log2_nonneg.
  destruct (Z.eq_dec n 0) as [-> | Hn0]; [reflexivity|].
  apply Z.log2_spec; lia.
Qed.

Lemma decimal_value_zeros (k : nat) (s : jsstring) :
  decimal_value (repeat ZERO k ++ s) = decimal_value s.
Proof.
  unfold decimal_value. induction k as [|k IH]; simpl; [reflexivity|].
  exact IH.
Qed.

Lemma nearest_scaled_spec (f : nat) (num den : Z) :
  0 < den ->
  let n := nearest_scaled f num den in
  2 * den * n <= 2 * num * 10 ^ Z.of_nat f + den < 2 * den * (n + 1).
Proof.
  intros Hden n. unfold n, nearest_scaled.
  set (X := 2 * num * 10 ^ Z.of_nat f + den).
  pose proof (Z.mul_div_le X (2 * den)).
  pose proof (Z.mul_succ_div_gt X (2 * den)).
  lia.
Qed.

Lemma denominator_pos (e : Z) : 0 < denominator e.
Proof.
  unfold denominator. destruct (Z.leb_spec 0 e); [lia|].
  apply Z.pow_pos_nonneg; lia.
Qed.

Lemma numerator_nonneg (m e : Z) : 0 <= m -> 0 <= numerator m e.
Proof.
  intros Hm. unfold numerator. destruct (0 <=? e); [|assumption].
  apply Z.mul_nonneg_nonneg; [assumption | apply Z.pow_nonneg; lia].
Qed.

(** Below [10^21] a finite value is written by [toFixed(2)] as an optional
    minus sign, one digit or more, a point and two digits, and the digits
    are those of the integer nearest to a hundred times the value. *)
Lemma toFixed_two_decimals (neg : bool) (m e : Z) :
  0 <= m ->
  numerator m e < 10 ^ 21 * denominator e ->
  let n := nearest_scaled 2 (numerator m e) (denominator e) in
  exists a b,
    toFixed 2 (Fin neg m e)
    = (if neg && negb (m =? 0) then js "-" else []) ++ a ++ DOT :: b /\
    a <> [] /\
    Forall (fun c => is_digit c = true) a /\
    Forall (fun c => is_digit c = true) b /\
    List.length b = 2%nat /\
    decimal_value (a ++ b) = n /\
    2 * denominator e * n <= 200 * numerator m e + denominator e
                          < 2 * denominator e * (n + 1).
Proof.
  intros Hm Hlt n.
  pose proof (denominator_pos e) as Hden.
  pose proof (numerator_nonneg e Hm) as Hnum.
  pose proof (nearest_scaled_spec 2 (numerator m e) Hden) as Hn.
  fold n in Hn. cbv zeta in Hn. change (10 ^ Z.of_nat 2) with 100 in Hn.
  assert (Hn0 : 0 <= n) by (apply Z.div_pos; change (10 ^ Z.of_nat 2) with 100; lia).
  unfold toFixed.
  replace (10 ^ 21 * denominator e <=? numerator m e) with false
    by (symmetry; apply Z.leb_gt; assumption).
  fold n. cbv zeta. change (2 =? 0)%nat with false. cbv iota.
  set (m0 := if n =? 0 then js "0" else digits n).
  assert (Hm0 : Forall (fun c => is_digit c = true) m0
                /\ (1 <= List.length m0)%nat /\ decimal_value m0 = n).
  { unfold m0. destruct (Z.eqb_spec n 0) as [E | E].
    - rewrite E. repeat split; [repeat constructor | simpl; lia].
    - repeat split;
        [apply digits_digits | apply digits_nonempty | apply digits_value];
        assumption. }
  destruct Hm0 as [Hd0 [Hl0 Hv0]].
  set (m1 := if (List.length m0 <=? 2)%nat
             then repeat ZERO (2 + 1 - List.length m0) ++ m0 else m0).
  assert (Hm1 : Forall (fun c => is_digit c = true) m1
                /\ (3 <= List.length m1)%nat /\ decimal_value m1 = n).
  { unfold m1. destruct (Nat.leb_spec (List.length m0) 2).
    - repeat split.
      + apply Forall_app; split; [|assumption].
        apply Forall_forall. intros c Hc. apply repeat_spec in Hc. subst c.
        reflexivity.
      + rewrite length_app, repeat_length. lia.
      + rewrite decimal_value_zeros. assumption.
    - repeat split; [assumption | lia | assumption]. }
  destruct Hm1 as [Hd1 [Hl1 Hv1]].
  exists (firstn (List.length m1 - 2) m1), (skipn (List.length m1 - 2) m1).
  rewrite <- (firstn_skipn (List.length m1 - 2) m1) in Hd1.
  apply Forall_app in Hd1. destruct Hd1 as [Hda Hdb].
  repeat split; try assumption; try lia.
  - intros E. apply (f_equal (@List.length char)) in E.
    rewrite length_firstn in E. simpl in E. lia.
  - rewrite length_skipn. lia.
  - rewrite firstn_skipn. assumption.
Qed.

Close Scope Z_scope.

(** ** Prices *)

(** A literal that starts with something other than a digit, a point, a
    sign or the [I] of [Infinity] is not a number. *)
Lemma Number_not_numeric (s : jsstring) (c : char) (r : jsstring) :
  trim s = c :: r ->
  is_digit c = false -> c <> DOT -> c <> PLUS -> c <> MINUS -> c <> ch "I" ->
  Number s = NaN.
Proof.
  intros Ht Hd Hdot Hplus Hminus HI. unfold Number. rewrite Ht.
  assert (Hd10 : digit_in 10 c = None).
  { unfold is_digit in Hd. destruct (digit_in 10 c); [discriminate | reflexivity]. }
  assert (Hz : (c =? ZERO)%N = false).
  { destruct (N.eqb_spec c ZERO) as [-> | ?]; [discriminate Hd | reflexivity]. }
  assert (Hnd : parse_nondecimal (c :: r) = None).
  { unfold parse_nondecimal. destruct r; [reflexivity|]. rewrite Hz. reflexivity. }
  rewrite Hnd.
  apply N.eqb_neq in Hdot, Hplus, Hminus, HI.
  rewrite Hminus, Hplus. simpl orb. cbv iota.
  assert (Hinf : jseqb (c :: r) (js "Infinity") = false).
  { change (js "Infinity") with (ch "I" :: js "nfinity"). simpl.
    change (ch "I") with 73%N in HI. rewrite HI. reflexivity. }
  rewrite Hinf. unfold parse_decimal. simpl read_digits. rewrite Hd10.
  rewrite Hdot. reflexivity.
Qed.

(** C1 (as amended). When the stripped price does not read as a finite
    number, [formatPrice] returns [$] followed by the stripped string as it
    is, so [N/A] gives [$N/A]; this covers every stripped string that starts
    with a character no numeric literal starts with.  The empty stripped
    string reads as zero and gives [$0.00], and so does a [null] or
    [undefined] argument. *)
Theorem formatPrice_fallback :
  (forall raw,
      isFinite (Number (stripped raw)) = false ->
      formatPrice (Some raw) = js "$" ++ stripped raw) /\
  (forall raw c r,
      stripped raw = c :: r ->
      is_digit c = false -> c <> DOT -> c <> PLUS -> c <> MINUS ->
      c <> ch "I" ->
      formatPrice (Some raw) = js "$" ++ stripped raw) /\
  formatPrice (Some (js "N/A")) = js "$N/A" /\
  (forall raw, stripped raw = [] -> formatPrice (Some raw) = js "$0.00") /\
  formatPrice None = js "$0.00".
Proof.
  assert (H1 : forall raw,
             isFinite (Number (stripped raw)) = false ->
             formatPrice (Some raw) = js "$" ++ stripped raw).
  { intros raw E. unfold formatPrice. cbv zeta. rewrite E. reflexivity. }
  split; [exact H1|]. split; [|split; [|split]].
  - intros raw c r E Hd Hdot Hplus Hminus HI. apply H1.
    rewrite (@Number_not_numeric (stripped raw) c r); auto.
    rewrite stripped_trimmed. assumption.
  - vm_compute. reflexivity.
  - intros raw E. unfold formatPrice. cbv zeta. rewrite E.
    vm_compute. reflexivity.
  - reflexivity.
Qed.

Lemma formatPrice_fallback_witness :
  isFinite (Number (stripped (js "N/A"))) = false /\
  formatPrice (Some (js "N/A")) = js "$" ++ stripped (js "N/A").
Proof.
  split; [vm_compute; reflexivity|].
  apply (proj1 formatPrice_fallback). vm_compute. reflexivity.
Defined.

(** The claim C1 as it is stated fails on the empty string: the stripped
    string is empty, it reads as the number zero, and the result is
    [$0.00], not a bare [$]. *)
Lemma formatPrice_empty_is_zero :
  stripped [] = [] /\
  Number (stripped []) = Fin false 0 0 /\
  formatPrice (Some []) = js "$0.00" /\
  formatPrice (Some []) <> js "$" ++ stripped [].
Proof.
  repeat split; try (vm_compute; reflexivity).
  vm_compute. discriminate.
Qed.

(** Below [10^21] in magnitude the price is [$], an optional minus sign, the
    digits of the integer part, a point and two digits; together the digits
    are the integer nearest to a hundred times the value. *)
Theorem formatPrice_two_decimals (raw : jsstring) (neg : bool) (m e : Z) :
  Number (stripped raw) = Fin neg m e ->
  (numerator m e < 10 ^ 21 * denominator e)%Z ->
  let n := nearest_scaled 2 (numerator m e) (denominator e) in
  exists a b,
    formatPrice (Some raw)
    = js "$" ++ (if neg && negb (m =? 0)%Z then js "-" else [])
         ++ a ++ DOT :: b /\
    a <> [] /\
    Forall (fun c => is_digit c = true) a /\
    Forall (fun c => is_digit c = true) b /\
    List.length b = 2 /\
    decimal_value (a ++ b) = n /\
    (2 * denominator e * n <= 200 * numerator m e + denominator e
                           < 2 * denominator e * (n + 1))%Z.
Proof.
  intros HN Hlt n.
  pose proof (Number_nonneg _ HN) as Hm.
  destruct (toFixed_two_decimals neg e Hm Hlt) as [a [b [E Hrest]]].
  exists a, b. split; [|exact Hrest].
  unfold formatPrice. cbv zeta. rewrite HN. simpl isFinite. cbv iota.
  simpl negb. cbv iota. rewrite E. reflexivity.
Qed.

Lemma formatPrice_two_decimals_witness :
  Number (stripped (js "1,234.5")) = Fin false 5429388417957888 (-42) /\
  formatPrice (Some (js "1,234.5")) = js "$1234.50".
Proof.
  split; [vm_compute; reflexivity|].
  destruct (@formatPrice_two_decimals (js "1,234.5") false
              5429388417957888 (-42)%Z) as [a [b [E _]]];
    [vm_compute; reflexivity | vm_compute; reflexivity |].
  vm_compute. reflexivity.
Defined.

(** C5 at a price of [1e21]: the stripped string reads as a finite number,
    and the result is [$1e+21], with no point and no decimal digits. *)
Theorem formatPrice_large_exponent :
  stripped (js "1e21") = js "1e21" /\
  isFinite (Number (stripped (js "1e21"))) = true /\
  formatPrice (Some (js "1e21")) = js "$1e+21" /\
  ~ In DOT (formatPrice (Some (js "1e21"))).
Proof.
  repeat split; try (vm_compute; reflexivity).
  vm_compute. intuition discriminate.
Qed.

(** ** The renderer *)

Lemma firstn_slice {A} (l : list A) (r e : nat) :
  r <= e -> firstn r l ++ firstn (e - r) (skipn r l) = firstn e l.
Proof.
  revert l e; induction r as [|r IH]; intros l e Hre.
  - simpl. rewrite Nat.sub_0_r. reflexivity.
  - destruct e as [|e]; [lia|]. destruct l as [|x l]; simpl.
    + apply firstn_nil.
    + f_equal. apply IH. lia.
Qed.

Lemma skipn_nth_error {A} (l : list A) (i : nat) (x : A) :
  nth_error l i = Some x -> skipn i l = x :: skipn (S i) l.
Proof.
  revert i; induction l as [|y l IH]; intros [|i]; simpl; try discriminate.
  - intros E; inversion E; reflexivity.
  - apply IH.
Qed.

Section RendererProperties.
Context `{Host}.

Lemma cards_app (a b : list Product) : cards (a ++ b) = cards a ++ cards b.
Proof. apply map_app. Qed.

(** The loop of [renderMore] with the grid in place. *)
Lemma for_range_append (count : nat) :
  forall from s,
    grid s = true -> from + count <= List.length (PRODUCTS s) ->
    for_range from count append_card s
    = Ok tt (set_dom (set_children
                        (main_children (dom s)
                           ++ cards (firstn count (skipn from (PRODUCTS s))))
                        (dom s)) s).
Proof.
  induction count as [|count IH]; intros from s Hg Hlen.
  - simpl. unfold ret. rewrite app_nil_r.
    destruct s as [P r i g f d t l c]; destruct d; reflexivity.
  - cbn [for_range]. unfold bind at 1. unfold append_card at 1. rewrite Hg.
    destruct (nth_error (PRODUCTS s) from) as [p|] eqn:Hp;
      [|apply nth_error_None in Hp; lia].
    rewrite IH; [|assumption | simpl; lia].
    rewrite (skipn_nth_error _ _ Hp).
    destruct s as [P r i g f d t l c]; destruct d; simpl.
    rewrite <- app_assoc. reflexivity.
Qed.

(** The loop of [renderMore] without the grid: the first step throws. *)
Lemma for_range_no_grid (count from : nat) (s : State) :
  grid s = false -> 0 < count ->
  for_range from count append_card s = Raise TypeError s.
Proof.
  intros Hg Hc. destruct count as [|count]; [lia|].
  cbn [for_range]. unfold bind, append_card. rewrite Hg. reflexivity.
Qed.

Lemma renderMore_done (s : State) :
  List.length (PRODUCTS s) <= rendered s -> renderMore s = Ok tt s.
Proof.
  intros Hle. unfold renderMore.
  replace (List.length (PRODUCTS s) <=? rendered s) with true
    by (symmetry; apply Nat.leb_le; assumption).
  reflexivity.
Qed.

Lemma renderMore_effective (s : State) :
  grid s = true -> rendered s < List.length (PRODUCTS s) ->
  renderMore s = Ok tt (after_batch s).
Proof.
  intros Hg Hlt. unfold renderMore.
  replace (List.length (PRODUCTS s) <=? rendered s) with false
    by (symmetry; apply Nat.leb_gt; assumption).
  unfold bind at 1. rewrite for_range_append; [|assumption|].
  - unfold after_batch, batch_end.
    destruct s as [P r i g [|] d t l c]; destruct d; reflexivity.
  - pose proof (Nat.le_min_r (rendered s + BATCH_SIZE) (List.length (PRODUCTS s))).
    unfold BATCH_SIZE in *. lia.
Qed.

Lemma renderMore_no_grid (s : State) :
  grid s = false -> rendered s < List.length (PRODUCTS s) ->
  renderMore s = Raise TypeError s.
Proof.
  intros Hg Hlt. unfold renderMore.
  replace (List.length (PRODUCTS s) <=? rendered s) with false
    by (symmetry; apply Nat.leb_gt; assumption).
  unfold bind at 1. rewrite for_range_no_grid; [reflexivity | assumption |].
  unfold BATCH_SIZE. lia.
Qed.

Lemma batch_end_bounds (s : State) :
  rendered s < List.length (PRODUCTS s) ->
  rendered s < batch_end s <= List.length (PRODUCTS s).
Proof. unfold batch_end, BATCH_SIZE. lia. Qed.

End RendererProperties.

Section Batches.
Context `{Host}.

Lemma after_batch_fields (s : State) :
  rendered (after_batch s) = batch_end s /\
  PRODUCTS (after_batch s) = PRODUCTS s /\
  grid (after_batch s) = grid s /\
  footerEl (after_batch s) = footerEl s /\
  initialized (after_batch s) = initialized s /\
  timers (after_batch s) = timers s /\
  scroll_listener (after_batch s) = scroll_listener s /\
  console (after_batch s) = console s /\
  main_children (dom (after_batch s))
  = main_children (dom s)
      ++ cards (firstn (batch_end s - rendered s)
                       (skipn (rendered s) (PRODUCTS s))) /\
  footer_text (dom (after_batch s))
  = (if footerEl s
     then status_line (batch_end s) (List.length (PRODUCTS s))
     else footer_text (dom s)) /\
  view_exists (dom (after_batch s)) = view_exists (dom s) /\
  view_hidden (dom (after_batch s)) = view_hidden (dom s).
Proof.
  unfold after_batch.
  destruct (footerEl s) eqn:E; repeat split; try reflexivity; exact E.
Qed.


(** C10. [renderMore] tests the record set only: with records left to
    show and no grid container it throws a [TypeError] at the first card.
    Such a state is reached: after the catalog is loaded and the view
    opened by navigation, and before the delayed [initDataView] has run,
    a scroll near the bottom calls [renderMore] and fails. *)
Theorem renderMore_unguarded_grid :
  (forall s,
      rendered s < List.length (PRODUCTS s) -> grid s = false ->
      renderMore s = Raise TypeError s) /\
  exists pg evs w,
    session (initial pg) evs = true /\
    let s := run (initial pg) evs in
    PRODUCTS s <> [] /\
    view_exists (dom s) = true /\ view_hidden (dom s) = false /\
    initialized s = false /\ grid s = false /\ 0 < timers s /\
    enabled (Scroll w) s = true /\ nearBottom w = true /\
    dispatch (Scroll w) s = Raise TypeError s.
Proof.
  split.
  - intros s Hlt Hg. apply renderMore_no_grid; assumption.
  - exists sample_page,
      [Load (Response true (Some plain_text)); Navigate (js "data") (Some true)],
      sample_window.
    split; [reflexivity|].
    cbv zeta.
    set (s := run (initial sample_page)
                  [Load (Response true (Some plain_text));
                   Navigate (js "data") (Some true)]).
    assert (HP : List.length (PRODUCTS s) = 1) by reflexivity.
    assert (Hr : rendered s = 0) by reflexivity.
    assert (Hg : grid s = false) by reflexivity.
    repeat split; try reflexivity.
    + intros E. rewrite E in HP. discriminate.
    + change (timers s) with 1. lia.
Qed.

End Batches.



Lemma renderMore_unguarded_grid_witness :
  let s := run (H := sample_host) (initial sample_page) sample_opening in
  rendered s < List.length (PRODUCTS s) /\ grid s = false /\
  renderMore (H := sample_host) s = Raise TypeError s.
Proof.
  cbv zeta. split; [vm_compute; lia|]. split; [reflexivity|].
  apply (proj1 (renderMore_unguarded_grid (H := sample_host)));
    [vm_compute; lia | reflexivity].
Defined.

(** ** Sessions *)

Section Sessions.
Context `{Host}.

Lemma renderMore_eq (s : State) :
  renderMore s
  = if grid s || (List.length (PRODUCTS s) <=? rendered s)
    then Ok tt (next_batch s) else Raise TypeError s.
Proof.
  unfold next_batch.
  destruct (Nat.leb_spec (List.length (PRODUCTS s)) (rendered s)) as [Hle | Hlt].
  - rewrite renderMore_done by assumption.
    replace (rendered s <? List.length (PRODUCTS s)) with false
      by (symmetry; apply Nat.ltb_ge; assumption).
    rewrite orb_true_r, andb_false_r. reflexivity.
  - replace (rendered s <? List.length (PRODUCTS s)) with true
      by (symmetry; apply Nat.ltb_lt; assumption).
    destruct (grid s) eqn:Hg; simpl.
    + apply renderMore_effective; assumption.
    + apply renderMore_no_grid; assumption.
Qed.

Lemma state_of_renderMore (s : State) : state_of (renderMore s) = next_batch s.
Proof.
  rewrite renderMore_eq.
  destruct (grid s || (List.length (PRODUCTS s) <=? rendered s)) eqn:E;
    [reflexivity|].
  apply orb_false_iff in E. destruct E as [Hg _].
  unfold next_batch. rewrite Hg. reflexivity.
Qed.

Lemma bind_elements_fields (s : State) :
  PRODUCTS (bind_elements s) = PRODUCTS s /\
  rendered (bind_elements s) = rendered s /\
  initialized (bind_elements s) = initialized s /\
  grid (bind_elements s) = true /\
  footerEl (bind_elements s) = true /\
  timers (bind_elements s) = timers s /\
  scroll_listener (bind_elements s) = scroll_listener s /\
  console (bind_elements s) = console s /\
  main_children (dom (bind_elements s)) = [] /\
  footer_text (dom (bind_elements s))
  = (if footer_exists (dom s) then footer_text (dom s) else []) /\
  footer_exists (dom (bind_elements s)) = true /\
  view_exists (dom (bind_elements s)) = view_exists (dom s) /\
  view_hidden (dom (bind_elements s)) = view_hidden (dom s).
Proof.
  unfold bind_elements. cbv zeta.
  destruct s as [P r i g f d t l c]; destruct d as [ve vh me mc fe ft];
    simpl. destruct fe; repeat split; reflexivity.
Qed.

Lemma next_batch_fields (s : State) :
  PRODUCTS (next_batch s) = PRODUCTS s /\
  grid (next_batch s) = grid s /\
  footerEl (next_batch s) = footerEl s /\
  initialized (next_batch s) = initialized s /\
  timers (next_batch s) = timers s /\
  scroll_listener (next_batch s) = scroll_listener s /\
  console (next_batch s) = console s /\
  view_exists (dom (next_batch s)) = view_exists (dom s) /\
  view_hidden (dom (next_batch s)) = view_hidden (dom s).
Proof.
  unfold next_batch.
  destruct (grid s && (rendered s <? List.length (PRODUCTS s)));
    [|repeat split; reflexivity].
  destruct (after_batch_fields s)
    as [_ [HP [Hg [Hf [Hi [Ht [Hl [Hc [_ [_ [Hve Hvh]]]]]]]]]]].
  repeat split; assumption.
Qed.

(** A batch moves the cursor forward, within the records, and appends to
    the grid. *)
Lemma next_batch_forward (s : State) :
  rendered s <= rendered (next_batch s) /\
  (rendered s <= List.length (PRODUCTS s) ->
   rendered (next_batch s) <= List.length (PRODUCTS s)) /\
  (exists more,
      main_children (dom (next_batch s)) = main_children (dom s) ++ more) /\
  (rendered s <= List.length (PRODUCTS s) ->
   main_children (dom s) = cards (firstn (rendered s) (PRODUCTS s)) ->
   main_children (dom (next_batch s))
   = cards (firstn (rendered (next_batch s)) (PRODUCTS s))) /\
  (grid s = false -> next_batch s = s) /\
  (PRODUCTS s = [] -> next_batch s = s).
Proof.
  unfold next_batch.
  destruct (grid s && (rendered s <? List.length (PRODUCTS s))) eqn:E.
  - apply andb_true_iff in E. destruct E as [Hg Hlt].
    apply Nat.ltb_lt in Hlt.
    destruct (after_batch_fields s)
      as [Hr [_ [_ [_ [_ [_ [_ [_ [Hc _]]]]]]]]].
    pose proof (batch_end_bounds s Hlt) as Hb.
    rewrite Hr, Hc.
    split; [lia|]. split; [lia|]. split; [eexists; reflexivity|].
    split; [|split].
    + intros _ E. rewrite E, <- cards_app, firstn_slice by lia. reflexivity.
    + congruence.
    + intros E. rewrite E in Hlt. simpl in Hlt. lia.
  - split; [lia|]. split; [auto|].
    split; [exists []; symmetry; apply app_nil_r|].
    split; [auto|]. split; reflexivity.
Qed.

Lemma initDataView_eq (s : State) : initDataView s = Ok tt (activated s).
Proof.
  unfold initDataView, activated.
  destruct (initialized s); simpl; [reflexivity|].
  destruct (view_exists (dom s)); simpl; [|reflexivity].
  unfold bind, modify.
  change (set_footerEl true
            (if footer_exists (dom (set_dom (set_main [] (dom s)) (set_grid true s)))
             then set_dom (set_main [] (dom s)) (set_grid true s)
             else set_dom (set_footer [] (dom (set_dom (set_main [] (dom s))
                                                       (set_grid true s))))
                          (set_dom (set_main [] (dom s)) (set_grid true s))))
    with (bind_elements s).
  rewrite renderMore_eq.
  destruct (bind_elements_fields s) as [_ [_ [_ [Hg _]]]].
  rewrite Hg. reflexivity.
Qed.

Lemma step_Load (f : Fetch) (s : State) :
  dispatch (Load f) s
  = Ok tt (set_scroll_listener true
             (if view_exists (dom (loaded f s))
                 && negb (view_hidden (dom (loaded f s)))
              then activated (loaded f s) else loaded f s)).
Proof.
  simpl. unfold onLoad, bind, modify. fold (loaded f s).
  destruct (view_exists (dom (loaded f s))
            && negb (view_hidden (dom (loaded f s))));
    [rewrite initDataView_eq|]; reflexivity.
Qed.

Lemma step_Timeout (s : State) :
  dispatch Timeout s = Ok tt (activated (set_timers (pred (timers s)) s)).
Proof. simpl. unfold bind, modify. apply initDataView_eq. Qed.

Lemma step_Scroll (w : Window) (s : State) :
  step s (Scroll w) = s \/ step s (Scroll w) = next_batch s.
Proof.
  unfold step; simpl. unfold onScroll.
  destruct (negb (view_exists (dom s)) || view_hidden (dom s)); [left; reflexivity|].
  destruct (nearBottom w); [right; apply state_of_renderMore | left; reflexivity].
Qed.

Lemma consistent_initial (pg : Page) : consistent (initial pg).
Proof.
  unfold consistent, coherent, initial; simpl.
  split; [|reflexivity].
  split; [lia|]. split; [reflexivity|]. split; [reflexivity | discriminate].
Qed.

Lemma coherent_next_batch (s : State) : coherent s -> coherent (next_batch s).
Proof.
  intros [Hr [Hgi [Hg0 Hc]]].
  destruct (next_batch_fields s) as [HP [Hg [_ [Hi _]]]].
  destruct (next_batch_forward s) as [Hle [Hin [_ [Hcards [Hsame _]]]]].
  unfold coherent. rewrite HP, Hg, Hi.
  split; [auto|]. split; [assumption|]. split.
  - intros E. rewrite (Hsame E). auto.
  - intros E. apply Hcards; auto.
Qed.

Lemma coherent_activated (s : State) : coherent s -> coherent (activated s).
Proof.
  intros Hs. unfold activated.
  destruct (initialized s) eqn:Hi; simpl; [assumption|].
  destruct (view_exists (dom s)); simpl; [|assumption].
  destruct Hs as [Hr [Hgi [Hg0 Hc]]].
  destruct (bind_elements_fields s)
    as [HP [Hrb [_ [Hg [_ [_ [_ [_ [Hch _]]]]]]]]].
  assert (Hr0 : rendered s = 0) by (apply Hg0; congruence).
  set (b := bind_elements s) in *.
  destruct (next_batch_fields b) as [HP' [Hg' _]].
  destruct (next_batch_forward b) as [_ [Hin [_ [Hcards _]]]].
  unfold coherent; simpl.
  rewrite HP', Hg', HP, Hg.
  split; [|split; [|split]].
  - rewrite HP, Hrb in Hin. apply Hin. lia.
  - reflexivity.
  - discriminate.
  - intros _. rewrite <- HP. apply Hcards.
    + rewrite HP, Hrb. lia.
    + rewrite Hch, Hrb, Hr0. reflexivity.
Qed.

(** [initDataView] never moves the cursor back, and does nothing once the
    latch is set. *)
Lemma activated_forward (s : State) :
  rendered s <= rendered (activated s) /\
  PRODUCTS (activated s) = PRODUCTS s /\
  scroll_listener (activated s) = scroll_listener s /\
  (initialized s = true -> activated s = s).
Proof.
  unfold activated.
  destruct (initialized s) eqn:Hi; simpl; [repeat split; auto|].
  destruct (view_exists (dom s)); simpl;
    [|split; [lia | split; [reflexivity | split; [reflexivity | discriminate]]]].
  destruct (bind_elements_fields s) as [HP [Hrb [_ [_ [_ [_ [Hl _]]]]]]].
  destruct (next_batch_forward (bind_elements s)) as [Hle _].
  destruct (next_batch_fields (bind_elements s)) as [HP' [_ [_ [_ [_ [Hl' _]]]]]].
  split; [lia|]. split; [congruence|]. split; [congruence | discriminate].
Qed.

(** One event keeps the state consistent, never moves the cursor back,
    never resets the latch and never removes a child of the grid. *)
Lemma step_consistent (s : State) (ev : Event) :
  consistent s -> enabled ev s = true ->
  consistent (step s ev) /\
  rendered s <= rendered (step s ev) /\
  (initialized s = true ->
   initialized (step s ev) = true /\
   exists more,
     main_children (dom (step s ev)) = main_children (dom s) ++ more).
Proof.
  intros [Hs Hlist] Hen.
  destruct ev as [f | page shown | | w].
  - (* load *)
    unfold step. rewrite step_Load. simpl state_of.
    simpl in Hen. apply negb_true_iff in Hen.
    assert (Hl : coherent (loaded f s)
                 /\ rendered (loaded f s) = rendered s
                 /\ initialized (loaded f s) = initialized s
                 /\ main_children (dom (loaded f s)) = main_children (dom s)).
    { destruct Hs as [Hr [Hgi [Hg0 Hc]]].
      specialize (Hlist Hen). rewrite Hlist in Hr, Hc. simpl in Hr.
      assert (Hr0 : rendered s = 0) by lia.
      rewrite Hr0 in Hc. simpl in Hc.
      unfold loaded. destruct (loadProducts f) as [err | ps];
        (split; [|repeat split; reflexivity]);
        unfold coherent; simpl; rewrite Hr0; simpl;
        (split; [lia|]); (split; [assumption|]); (split; [reflexivity|]);
        assumption. }
    destruct Hl as [Hcl [Hrl [Hil Hml]]].
    set (t := if view_exists (dom (loaded f s))
                 && negb (view_hidden (dom (loaded f s)))
              then activated (loaded f s) else loaded f s).
    assert (Ht : coherent t /\ rendered s <= rendered t
                 /\ (initialized s = true -> t = loaded f s)).
    { unfold t. destruct (view_exists (dom (loaded f s))
                          && negb (view_hidden (dom (loaded f s)))).
      - destruct (activated_forward (loaded f s)) as [Hle [_ [_ Hid]]].
        split; [apply coherent_activated; assumption|].
        split; [lia | intros E; apply Hid; congruence].
      - split; [assumption | split; [lia | reflexivity]]. }
    destruct Ht as [Hct [Hrt Hid]].
    split; [|split].
    + split; [exact Hct | simpl; discriminate].
    + simpl. assumption.
    + intros Hi. simpl. rewrite (Hid Hi), Hil, Hml.
      split; [assumption | exists []; symmetry; apply app_nil_r].
  - (* navigate *)
    unfold step; simpl. unfold navigate.
    destruct (jseqb page (js "data")); destruct shown as [b|]; simpl;
      (split; [split; [exact Hs | exact Hlist]|]);
      (split; [lia|]);
      intros Hi; (split; [assumption | exists []; symmetry; apply app_nil_r]).
  - (* timer *)
    unfold step. rewrite step_Timeout. simpl state_of.
    set (t := set_timers (pred (timers s)) s).
    assert (Hct : coherent t) by exact Hs.
    destruct (activated_forward t) as [Hle [HP [Hls Hid]]].
    split; [|split].
    + split; [apply coherent_activated; assumption|].
      rewrite HP, Hls. exact Hlist.
    + exact Hle.
    + intros Hi. rewrite (Hid Hi). simpl.
      split; [assumption | exists []; symmetry; apply app_nil_r].
  - (* scroll *)
    destruct (step_Scroll w s) as [E | E]; rewrite E.
    + split; [split; assumption|]. split; [lia|].
      intros Hi. split; [assumption | exists []; symmetry; apply app_nil_r].
    + destruct (next_batch_forward s) as [Hle [_ [Hmore _]]].
      destruct (next_batch_fields s) as [HP [_ [_ [Hi' [_ [Hls _]]]]]].
      split; [|split].
      * split; [apply coherent_next_batch; assumption|].
        rewrite HP, Hls. exact Hlist.
      * assumption.
      * intros Hi. rewrite Hi'. auto.
Qed.

Lemma run_app (s : State) (a b : list Event) :
  run s (a ++ b) = run (run s a) b.
Proof. apply fold_left_app. Qed.

Lemma session_app (a : list Event) :
  forall s b, session s (a ++ b) = session s a && session (run s a) b.
Proof.
  induction a as [|ev a IH]; intros s b; simpl; [reflexivity|].
  rewrite IH, andb_assoc. reflexivity.
Qed.

Lemma run_consistent (evs : list Event) :
  forall s,
    consistent s -> session s evs = true ->
    consistent (run s evs) /\
    rendered s <= rendered (run s evs) /\
    (initialized s = true ->
     initialized (run s evs) = true /\
     exists more,
       main_children (dom (run s evs)) = main_children (dom s) ++ more).
Proof.
  induction evs as [|ev evs IH]; intros s Hs Hses; simpl in *.
  - split; [assumption|]. split; [lia|].
    intros Hi. split; [assumption | exists []; symmetry; apply app_nil_r].
  - apply andb_true_iff in Hses. destruct Hses as [Hen Hrest].
    destruct (step_consistent ev Hs Hen) as [Hs1 [Hr1 Hi1]].
    destruct (IH _ Hs1 Hrest) as [Hs2 [Hr2 Hi2]].
    split; [assumption|]. split; [lia|].
    intros Hi. destruct (Hi1 Hi) as [Hi1' [m1 Hm1]].
    destruct (Hi2 Hi1') as [Hi2' [m2 Hm2]].
    split; [assumption|]. exists (m1 ++ m2).
    rewrite Hm2, Hm1, app_assoc. reflexivity.
Qed.

(** C6. The latch starts unset and the cursor at 0.  From any point of a
    session to any later one the cursor does not move back and stays
    within the records.  The first [initDataView] that finds the view
    sets the latch.  Once the latch is set it stays set, a further
    [initDataView] changes nothing, the children of the grid are only
    added to, and they are the cards of the first [rendered] records,
    once each; a batch with records left moves the cursor strictly
    forward. *)
Theorem renderer_one_way (pg : Page) (before after : list Event) :
  session (initial pg) (before ++ after) = true ->
  let s1 := run (initial pg) before in
  let s2 := run s1 after in
  (initialized (initial pg) = false /\ rendered (initial pg) = 0) /\
  rendered s1 <= rendered s2 /\
  rendered s2 <= List.length (PRODUCTS s2) /\
  (initialized s1 = false -> view_exists (dom s1) = true ->
   initialized (state_of (initDataView s1)) = true) /\
  (initialized s1 = true ->
   initialized s2 = true /\
   initDataView s2 = Ok tt s2 /\
   (exists more,
       main_children (dom s2) = main_children (dom s1) ++ more) /\
   main_children (dom s2) = cards (firstn (rendered s2) (PRODUCTS s2))) /\
  (initialized s2 = true -> rendered s2 < List.length (PRODUCTS s2) ->
   rendered s2 < rendered (state_of (renderMore s2))).
Proof.
  intros Hses s1 s2.
  rewrite session_app in Hses. apply andb_true_iff in Hses.
  destruct Hses as [Hb Ha]. fold s1 in Ha.
  destruct (run_consistent before (consistent_initial pg) Hb) as [Hc1 _].
  fold s1 in Hc1.
  destruct (run_consistent after Hc1 Ha) as [Hc2 [Hr12 Hi12]].
  fold s2 in Hc2, Hr12, Hi12.
  destruct Hc2 as [[Hr2 [Hgi2 [Hg02 Hch2]]] _].
  split; [split; reflexivity|]. split; [assumption|]. split; [assumption|].
  split; [|split].
  - intros Hi Hv. rewrite initDataView_eq. unfold activated.
    rewrite Hi, Hv. reflexivity.
  - intros Hi. destruct (Hi12 Hi) as [Hi2 Hmore].
    split; [assumption|]. split; [|split].
    + rewrite initDataView_eq. unfold activated. rewrite Hi2. reflexivity.
    + assumption.
    + apply Hch2. congruence.
  - intros Hi2 Hlt. rewrite state_of_renderMore. unfold next_batch.
    replace (grid s2) with true by congruence.
    replace (rendered s2 <? List.length (PRODUCTS s2)) with true
      by (symmetry; apply Nat.ltb_lt; assumption).
    cbn [andb]. destruct (after_batch_fields s2) as [Hr _]. rewrite Hr.
    apply batch_end_bounds. assumption.
Qed.

Lemma activated_untouched (pg : Page) (s : State) :
  untouched pg s ->
  untouched pg (activated s) /\ console (activated s) = console s.
Proof.
  intros [HP [Hr [Hc [Hft Hfe]]]]. unfold activated.
  destruct (initialized s || negb (view_exists (dom s)));
    [split; [repeat split; assumption | reflexivity]|].
  destruct (bind_elements_fields s)
    as [HPb [Hrb [_ [_ [_ [_ [_ [Hcb [Hchb [Hftb [Hfeb _]]]]]]]]]]].
  destruct (next_batch_forward (bind_elements s)) as [_ [_ [_ [_ [_ Hsame]]]]].
  rewrite Hsame by congruence.
  unfold untouched, set_initialized; cbn [PRODUCTS rendered dom console].
  split; [|assumption].
  rewrite HPb, Hrb, Hchb, Hftb, Hfeb.
  split; [assumption|]. split; [assumption|]. split; [left; reflexivity|].
  split; [|discriminate].
  destruct (footer_exists (dom s)); [assumption|].
  rewrite <- Hft. symmetry. apply Hfe. reflexivity.
Qed.

Lemma step_untouched (pg : Page) (s : State) (ev : Event) :
  untouched pg s ->
  (forall f, ev = Load f -> exists err, loadProducts f = inl err) ->
  untouched pg (step s ev) /\ returns (dispatch ev s) = true.
Proof.
  intros Hs Hfail. destruct ev as [f | page shown | | w].
  - unfold step. rewrite step_Load. split; [|reflexivity]. simpl state_of.
    destruct (Hfail f eq_refl) as [err Herr].
    assert (Hl : untouched pg (loaded f s)).
    { unfold loaded. rewrite Herr. destruct Hs as [HP [Hr [Hc [Hft Hfe]]]].
      unfold untouched; simpl. repeat split; assumption. }
    destruct (view_exists (dom (loaded f s))
              && negb (view_hidden (dom (loaded f s)))).
    + destruct (activated_untouched Hl) as [Ha _]. exact Ha.
    + exact Hl.
  - unfold step; simpl. unfold navigate.
    destruct Hs as [HP [Hr [Hc [Hft Hfe]]]].
    destruct (jseqb page (js "data")); destruct shown as [b|];
      (split; [|reflexivity]);
      unfold untouched; simpl; repeat split; assumption.
  - unfold step. rewrite step_Timeout. split; [|reflexivity]. simpl state_of.
    apply activated_untouched. exact Hs.
  - unfold step; simpl. unfold onScroll.
    destruct (negb (view_exists (dom s)) || view_hidden (dom s));
      [split; [exact Hs | reflexivity]|].
    destruct (nearBottom w); [|split; [exact Hs | reflexivity]].
    destruct Hs as [HP [Hr Hrest]].
    rewrite renderMore_done by (rewrite HP, Hr; simpl; lia).
    split; [repeat split; tauto | reflexivity].
Qed.

Lemma run_untouched (pg : Page) (evs : list Event) :
  forall s,
    untouched pg s ->
    (forall f, In (Load f) evs -> exists err, loadProducts f = inl err) ->
    untouched pg (run s evs) /\ all_return s evs = true.
Proof.
  induction evs as [|ev evs IH]; intros s Hs Hfail; simpl.
  - split; [assumption | reflexivity].
  - destruct (@step_untouched pg s ev Hs) as [Hs1 Hret].
    { intros f ->. apply Hfail. left; reflexivity. }
    destruct (IH (step s ev) Hs1) as [Hs2 Hall].
    { intros f Hin. apply Hfail. right; assumption. }
    split; [assumption|]. rewrite Hret, Hall. reflexivity.
Qed.

(** C7. A rejected fetch and a response that is not [ok] make
    [loadProducts] fail; the handler of [load] logs the error and assigns
    the empty list.  In a session whose load fails, whatever the events,
    every handler returns, there are no records, the cursor stays at 0,
    the grid is empty or as the page had it, and the text of the footer
    is never written. *)
Theorem fetch_failure_empty_catalog (pg : Page) (evs : list Event) :
  session (initial pg) evs = true ->
  (forall f, In (Load f) evs -> exists err, loadProducts f = inl err) ->
  let s := run (initial pg) evs in
  (loadProducts Rejected = inl FetchRejected /\
   forall body, exists err, loadProducts (Response false body) = inl err) /\
  (forall f err t,
      loadProducts f = inl err ->
      PRODUCTS (state_of (onLoad f t)) = [] /\
      console (state_of (onLoad f t)) = console t ++ [err] /\
      returns (onLoad f t) = true) /\
  all_return (initial pg) evs = true /\
  PRODUCTS s = [] /\ rendered s = 0 /\
  (main_children (dom s) = []
   \/ main_children (dom s) = main_children (dom (initial pg))) /\
  footer_text (dom s) = footer_text (dom (initial pg)).
Proof.
  intros _ Hfail s.
  split; [split; [reflexivity | intros body; eexists; reflexivity]|].
  split.
  - intros f err t Herr.
    change (onLoad f t) with (dispatch (Load f) t). rewrite step_Load.
    simpl state_of. simpl returns.
    assert (HL : PRODUCTS (loaded f t) = []
                 /\ console (loaded f t) = console t ++ [err]).
    { unfold loaded. rewrite Herr. split; reflexivity. }
    destruct HL as [HP Hc].
    destruct (view_exists (dom (loaded f t))
              && negb (view_hidden (dom (loaded f t)))); simpl;
      [|repeat split; assumption].
    unfold activated.
    destruct (initialized (loaded f t) || negb (view_exists (dom (loaded f t))));
      [repeat split; assumption|].
    destruct (bind_elements_fields (loaded f t))
      as [HPb [_ [_ [_ [_ [_ [_ [Hcb _]]]]]]]].
    destruct (next_batch_forward (bind_elements (loaded f t)))
      as [_ [_ [_ [_ [_ Hsame]]]]].
    rewrite Hsame by congruence.
    unfold set_scroll_listener, set_initialized; cbn [PRODUCTS console].
    repeat split; congruence.
  - assert (H0 : untouched pg (initial pg)).
    { unfold untouched, initial; simpl.
      split; [reflexivity|]. split; [reflexivity|].
      split; [right; reflexivity|]. split; [reflexivity|].
      destruct (page_footer pg); [discriminate | reflexivity]. }
    destruct (run_untouched evs H0 Hfail) as [[HP [Hr [Hc [Hft _]]]] Hall].
    fold s in HP, Hr, Hc, Hft.
    repeat split; assumption.
Qed.

End Sessions.

Lemma renderer_one_way_witness :
  let s1 := run (H := sample_host) (initial sample_page)
                (sample_opening ++ [Timeout]) in
  let s2 := run (H := sample_host) s1
                [Scroll sample_window; Navigate (js "data") (Some true); Timeout] in
  session (H := sample_host) (initial sample_page) sample_visit = true /\
  initialized s1 = true /\ initialized s2 = true /\
  main_children (dom s2) = cards (H := sample_host) (PRODUCTS s2).
Proof.
  cbv zeta. split; [reflexivity|]. split; [reflexivity|].
  destruct (renderer_one_way (H := sample_host) sample_page
              (sample_opening ++ [Timeout])
              [Scroll sample_window; Navigate (js "data") (Some true); Timeout]
              eq_refl)
    as [_ [_ [_ [_ [Hlate _]]]]].
  destruct (Hlate eq_refl) as [Hi [_ [_ Hc]]].
  split; [exact Hi|]. rewrite Hc. reflexivity.
Defined.

Lemma fetch_failure_empty_catalog_witness :
  session (H := sample_host) (initial sample_page) sample_offline = true /\
  (forall f, In (Load f) sample_offline ->
             exists err, loadProducts (H := sample_host) f = inl err) /\
  all_return (H := sample_host) (initial sample_page) sample_offline = true /\
  PRODUCTS (run (H := sample_host) (initial sample_page) sample_offline) = [].
Proof.
  assert (Hf : forall f, In (Load f) sample_offline ->
                         exists err, loadProducts (H := sample_host) f = inl err).
  { intros f [E | [E | [E | [E | []]]]]; inversion E.
    exists FetchRejected. reflexivity. }
  split; [reflexivity|]. split; [exact Hf|].
  destruct (fetch_failure_empty_catalog (H := sample_host) sample_page
              sample_offline eq_refl Hf)
    as [_ [_ [Hall [HP _]]]].
  split; [exact Hall | exact HP].
Defined.



(** ** Further properties of the price *)

Lemma trimStart_incl (s : jsstring) (x : char) : In x (trimStart s) -> In x s.
Proof.
  induction s as [|c r IH]; simpl; [tauto|].
  destruct (is_space c); simpl; auto.
Qed.

Lemma trim_incl (s : jsstring) (x : char) : In x (trim s) -> In x s.
Proof.
  unfold trim, trimEnd. intros Hx.
  apply trimStart_incl. apply in_rev.
  apply trimStart_incl. apply in_rev. exact Hx.
Qed.

Lemma remove_all_absent (c : char) (s : jsstring) :
  ~ In c s -> remove_all c s = s.
Proof.
  induction s as [|x s IH]; simpl; [reflexivity|]. intros Hn.
  destruct (N.eqb_spec x c) as [-> | _]; simpl; [tauto|].
  f_equal. apply IH. tauto.
Qed.

Lemma remove_all_gone (c : char) (s : jsstring) : ~ In c (remove_all c s).
Proof.
  unfold remove_all. intros Hin. apply filter_In in Hin.
  destruct Hin as [_ Hc]. rewrite N.eqb_refl in Hc. discriminate.
Qed.

Lemma remove_all_keeps_absent (c d : char) (s : jsstring) :
  ~ In d s -> ~ In d (remove_all c s).
Proof.
  unfold remove_all. intros Hn Hin. apply filter_In in Hin. tauto.
Qed.

Lemma remove_all_app (c : char) (x y : jsstring) :
  remove_all c (x ++ y) = remove_all c x ++ remove_all c y.
Proof. apply filter_app. Qed.

Lemma remove_all_spaces (c : char) (ws : jsstring) :
  is_space c = false -> Forall (fun x => is_space x = true) ws ->
  remove_all c ws = ws.
Proof.
  intros Hc Hws. apply remove_all_absent. intros Hin.
  rewrite Forall_forall in Hws. apply Hws in Hin. congruence.
Qed.

Lemma trimStart_nil_spaces (s : jsstring) :
  trimStart s = [] -> Forall (fun c => is_space c = true) s.
Proof.
  induction s as [|c r IH]; simpl; [constructor|].
  destruct (is_space c) eqn:Hc; [|discriminate].
  intros E. constructor; auto.
Qed.

Lemma trimStart_all_spaces (s : jsstring) :
  Forall (fun c => is_space c = true) s -> trimStart s = [].
Proof.
  intros Hs. rewrite <- (app_nil_r s). rewrite trimStart_spaces by assumption.
  reflexivity.
Qed.

Lemma trimStart_app (x y : jsstring) :
  trimStart x <> [] -> trimStart (x ++ y) = trimStart x ++ y.
Proof.
  induction x as [|c r IH]; simpl; [congruence|].
  destruct (is_space c); [exact IH | reflexivity].
Qed.

(** White space around a string does not change what [trim] returns. *)
Lemma trim_outer_spaces (ws1 ws2 s : jsstring) :
  Forall (fun c => is_space c = true) ws1 ->
  Forall (fun c => is_space c = true) ws2 ->
  trim (ws1 ++ s ++ ws2) = trim s.
Proof.
  intros H1 H2. unfold trim. rewrite trimStart_spaces by assumption.
  destruct (trimStart s) as [|c r] eqn:E.
  - assert (Hall : Forall (fun c => is_space c = true) (s ++ ws2)).
    { apply Forall_app. split; [apply trimStart_nil_spaces|]; assumption. }
    rewrite (trimStart_all_spaces Hall). reflexivity.
  - rewrite trimStart_app by congruence. rewrite E.
    unfold trimEnd. rewrite rev_app_distr, trimStart_spaces; [reflexivity|].
    apply Forall_rev. assumption.
Qed.

(** X. Stripping is done once and for all: the stripped string holds no
    dollar sign and no comma, stripping it again returns it, and
    [formatPrice] gives the same price for a string and for its stripped
    form. *)
Theorem formatPrice_of_stripped (raw : jsstring) :
  ~ In DOLLAR (stripped raw) /\ ~ In COMMA (stripped raw) /\
  stripped (stripped raw) = stripped raw /\
  formatPrice (Some (stripped raw)) = formatPrice (Some raw).
Proof.
  assert (Hd : ~ In DOLLAR (stripped raw)).
  { intros Hin. apply trim_incl in Hin.
    revert Hin. apply remove_all_keeps_absent, remove_all_gone. }
  assert (Hc : ~ In COMMA (stripped raw)).
  { intros Hin. apply trim_incl in Hin. revert Hin. apply remove_all_gone. }
  assert (Hs : stripped (stripped raw) = stripped raw).
  { unfold stripped at 1.
    rewrite (remove_all_absent DOLLAR (stripped raw) Hd),
      (remove_all_absent COMMA (stripped raw) Hc).
    apply stripped_trimmed. }
  repeat split; try assumption.
  unfold formatPrice. rewrite Hs. reflexivity.
Qed.

(** X. A dollar sign or a comma anywhere in the raw price is ignored, also
    between two digits, and so is white space around it. *)
Theorem formatPrice_ignores_symbols (ws1 a b ws2 : jsstring) (c : char) :
  c = DOLLAR \/ c = COMMA ->
  Forall (fun x => is_space x = true) ws1 ->
  Forall (fun x => is_space x = true) ws2 ->
  formatPrice (Some (ws1 ++ (a ++ c :: b) ++ ws2)) = formatPrice (Some (a ++ b)).
Proof.
  intros Hc H1 H2.
  assert (E : stripped (ws1 ++ (a ++ c :: b) ++ ws2) = stripped (a ++ b)).
  { unfold stripped.
    rewrite !remove_all_app.
    rewrite (@remove_all_spaces DOLLAR ws1), (@remove_all_spaces DOLLAR ws2)
      by (reflexivity || assumption).
    rewrite ?remove_all_app.
    rewrite (@remove_all_spaces COMMA ws1), (@remove_all_spaces COMMA ws2)
      by (reflexivity || assumption).
    rewrite trim_outer_spaces by assumption.
    f_equal. f_equal.
    destruct Hc as [-> | ->]; simpl; reflexivity. }
  unfold formatPrice. rewrite E. reflexivity.
Qed.

Lemma formatPrice_ignores_symbols_witness :
  formatPrice (Some (js " " ++ (js "$1" ++ COMMA :: js "234.5") ++ js "  "))
  = js "$1234.50".
Proof.
  rewrite (@formatPrice_ignores_symbols (js " ") (js "$1") (js "234.5")
             (js "  ") COMMA);
    [vm_compute; reflexivity | right; reflexivity
     | repeat constructor | repeat constructor].
Defined.

(** ** Further properties of the loader *)

(** *** Columns *)

Lemma split_char_length (sep : char) (s : jsstring) :
  List.length (split_char sep s) = S (count_occ N.eq_dec s sep).
Proof.
  induction s as [|c r IH]; simpl; [reflexivity|].
  destruct (N.eqb_spec c sep) as [-> | Hc].
  - destruct (N.eq_dec sep sep); [|congruence]. simpl. congruence.
  - destruct (N.eq_dec c sep); [congruence|].
    destruct (split_char sep r); simpl in *; [discriminate | assumption].
Qed.

Lemma split_char_last (sep : char) (a : jsstring) :
  ~ In sep a -> split_char sep a = [a].
Proof.
  induction a as [|c a IH]; simpl; [reflexivity|]. intros Hn.
  destruct (N.eqb_spec c sep) as [-> | _]; [tauto|].
  rewrite IH by tauto. reflexivity.
Qed.

Lemma split_char_app (sep : char) (a r : jsstring) :
  ~ In sep a -> split_char sep (a ++ sep :: r) = a :: split_char sep r.
Proof.
  induction a as [|c a IH]; simpl; intros Hn.
  - rewrite N.eqb_refl. reflexivity.
  - destruct (N.eqb_spec c sep) as [-> | _]; [tauto|].
    rewrite IH by tauto. reflexivity.
Qed.

Lemma trim_nil_iff (s : jsstring) :
  trim s = [] <-> Forall (fun c => is_space c = true) s.
Proof.
  split.
  - unfold trim, trimEnd. intros E.
    apply (f_equal (@rev char)) in E. rewrite rev_involutive in E. simpl in E.
    apply trimStart_nil_spaces in E. apply Forall_rev in E.
    rewrite rev_involutive in E.
    destruct (trimStart s) as [|c r] eqn:Hs;
      [apply trimStart_nil_spaces; assumption|].
    apply trimStart_head in Hs. inversion E; congruence.
  - intros Hs. unfold trim. rewrite (trimStart_all_spaces Hs). reflexivity.
Qed.

(** X. A row is rejected exactly when the line holds fewer than two tabs, or
    its first column has no bracket pair with something between the
    brackets, or the leftmost such pair holds white space only. *)
Theorem parseRow_rejected `{Host} (line : jsstring) (i : nat) :
  parseRow line i = None <->
  count_occ N.eq_dec line TAB < 2 \/
  match capture LBRACKET RBRACKET (trim (nth 0 (split_char TAB line) [])) with
  | None => True
  | Some seg => Forall (fun c => is_space c = true) seg
  end.
Proof.
  rewrite parseRow_accepted, accepted_false, split_char_length.
  unfold row_name, capture_or_empty.
  destruct (capture LBRACKET RBRACKET (trim (nth 0 (split_char TAB line) [])))
    as [seg|].
  - rewrite trim_nil_iff. split; (intros [Hc | Hn]; [left; lia | right; assumption]).
  - split; (intros [Hc | Hn]; [left; lia | right; auto]).
Qed.

(** X. The second column and everything behind the third are ignored: two
    lines with the same first and third column give the same record. *)
Theorem parseRow_ignores_columns `{Host}
        (a b b' c rest : jsstring) (i : nat) :
  ~ In TAB a -> ~ In TAB b -> ~ In TAB b' -> ~ In TAB c ->
  parseRow (a ++ TAB :: b' ++ TAB :: c ++ TAB :: rest) i
  = parseRow (a ++ TAB :: b ++ TAB :: c) i.
Proof.
  intros Ha Hb Hb' Hc. unfold parseRow.
  rewrite !split_char_app by assumption.
  rewrite (split_char_last TAB c Hc).
  destruct (split_char TAB rest) as [|r0 rs] eqn:E; reflexivity.
Qed.

Lemma parseRow_ignores_columns_witness :
  parseRow (H := sample_host)
           (js "[Lamp]{5}" ++ TAB :: js "x" ++ TAB :: js "i.png"
               ++ TAB :: js "more") 3
  = parseRow (H := sample_host)
             (js "[Lamp]{5}" ++ TAB :: js "another" ++ TAB :: js "i.png") 3.
Proof.
  apply (parseRow_ignores_columns (H := sample_host));
    vm_compute; intuition discriminate.
Defined.

(** *** A row with all its segments *)

Lemma capture_at (o c : char) (pre seg post : jsstring) :
  ~ In o pre -> seg <> [] -> ~ In c seg ->
  capture o c (pre ++ o :: seg ++ c :: post) = Some seg.
Proof.
  intros Hpre Hseg Hc. induction pre as [|x pre IH]; simpl.
  - rewrite N.eqb_refl, span_not_app by assumption.
    destruct seg; [congruence | reflexivity].
  - destruct (N.eqb_spec x o) as [-> | _]; [simpl in Hpre; tauto|].
    apply IH. simpl in Hpre. tauto.
Qed.

Lemma trim_ends (x y : char) (m : jsstring) :
  is_space x = false -> is_space y = false ->
  trim (x :: m ++ [y]) = x :: m ++ [y].
Proof.
  intros Hx Hy. unfold trim. cbn [trimStart]. rewrite Hx.
  unfold trimEnd.
  replace (rev (x :: m ++ [y])) with (y :: rev (x :: m))
    by (change (x :: m ++ [y]) with ((x :: m) ++ [y]);
        rewrite rev_app_distr; reflexivity).
  cbn [trimStart]. rewrite Hy.
  change (rev (y :: rev (x :: m))) with (rev (rev (x :: m)) ++ [y]).
  rewrite rev_involutive. reflexivity.
Qed.

Ltac absent :=
  repeat (progress (simpl; rewrite ?in_app_iff));
  repeat match goal with
         | H : avoids ?s _ |- _ =>
             match goal with
             | |- context [In ?o s] =>
                 lazymatch goal with
                 | _ : ~ In o s |- _ => fail
                 | _ => assert (~ In o s) by (apply H; simpl; tauto)
                 end
             end
         end;
  intuition discriminate.

(** X. A line written as [[n](l){p}%c%], a tab, anything, a tab and an
    image, where no segment holds a tab, its own closing delimiter or the
    opening delimiter of a later segment, is parsed into the trimmed name,
    the rewritten link, the formatted price, the lowercased category and
    the trimmed image, with the id that follows the index. *)
Theorem parseRow_well_formed `{Host}
        (n l p c other img : jsstring) (i : nat) :
  avoids n [TAB; RBRACKET; LPAREN; LBRACE; PERCENT] ->
  avoids l [TAB; RPAREN; LBRACE; PERCENT] ->
  avoids p [TAB; RBRACE; PERCENT] ->
  avoids c [TAB; PERCENT] ->
  avoids other [TAB] -> avoids img [TAB] ->
  trim n <> [] -> l <> [] -> p <> [] -> c <> [] ->
  parseRow (first_column n l p c ++ TAB :: other ++ TAB :: img) i
  = Some (mkProduct (i + 1) (trim n)
            (if truthy (trim l) then updateRef (trim l) else [])
            (formatPrice (Some (trim p)))
            (toLowerCase (trim c))
            (trim img)).
Proof.
  intros Hn Hl Hp Hc Ho Hi Hname Hl0 Hp0 Hc0.
  assert (Hn0 : n <> []) by (intros ->; apply Hname; reflexivity).
  set (col := first_column n l p c).
  assert (Hcol : ~ In TAB col) by (unfold col, first_column; absent).
  assert (Htrim : trim col = col).
  { unfold col, first_column.
    replace (n ++ RBRACKET :: LPAREN :: l ++ RPAREN :: LBRACE :: p
               ++ RBRACE :: PERCENT :: c ++ [PERCENT])
      with ((n ++ RBRACKET :: LPAREN :: l ++ RPAREN :: LBRACE :: p
               ++ RBRACE :: PERCENT :: c) ++ [PERCENT])
      by (repeat (rewrite <- app_assoc; simpl); reflexivity).
    apply trim_ends; reflexivity. }
  assert (Cn : capture LBRACKET RBRACKET col = Some n).
  { unfold col, first_column.
    apply (@capture_at LBRACKET RBRACKET [] n); [simpl; tauto | assumption | absent]. }
  assert (Cl : capture LPAREN RPAREN col = Some l).
  { unfold col, first_column.
    replace (LBRACKET :: n ++ RBRACKET :: LPAREN :: l ++ RPAREN :: LBRACE :: p
               ++ RBRACE :: PERCENT :: c ++ [PERCENT])
      with ((LBRACKET :: n ++ [RBRACKET]) ++ LPAREN :: l ++ RPAREN :: LBRACE :: p
               ++ RBRACE :: PERCENT :: c ++ [PERCENT])
      by (simpl; rewrite <- app_assoc; reflexivity).
    apply capture_at; [absent | assumption | absent]. }
  assert (Cp : capture LBRACE RBRACE col = Some p).
  { unfold col, first_column.
    replace (LBRACKET :: n ++ RBRACKET :: LPAREN :: l ++ RPAREN :: LBRACE :: p
               ++ RBRACE :: PERCENT :: c ++ [PERCENT])
      with ((LBRACKET :: n ++ RBRACKET :: LPAREN :: l ++ [RPAREN])
              ++ LBRACE :: p ++ RBRACE :: PERCENT :: c ++ [PERCENT])
      by (simpl; repeat (rewrite <- app_assoc; simpl); reflexivity).
    apply capture_at; [absent | assumption | absent]. }
  assert (Cc : capture PERCENT PERCENT col = Some c).
  { unfold col, first_column.
    replace (LBRACKET :: n ++ RBRACKET :: LPAREN :: l ++ RPAREN :: LBRACE :: p
               ++ RBRACE :: PERCENT :: c ++ [PERCENT])
      with ((LBRACKET :: n ++ RBRACKET :: LPAREN :: l ++ RPAREN :: LBRACE :: p
                      ++ [RBRACE])
              ++ PERCENT :: c ++ PERCENT :: [])
      by (simpl; repeat (rewrite <- app_assoc; simpl); reflexivity).
    apply capture_at; [absent | assumption | absent]. }
  unfold parseRow.
  rewrite (split_char_app TAB col _ Hcol).
  rewrite split_char_app by (apply Ho; simpl; tauto).
  rewrite split_char_last by (apply Hi; simpl; tauto).
  cbn [List.length Nat.ltb Nat.leb nth]. rewrite Htrim.
  unfold capture_or_empty. rewrite Cn, Cl, Cp, Cc.
  destruct (trim n) as [|x r] eqn:En; [congruence|].
  cbn [truthy negb]. destruct (trim l); reflexivity.
Qed.

Lemma parseRow_well_formed_witness :
  parseRow (H := sample_host)
    (first_column (js " Desk Lamp ") (js "https://x.com/p?ref=OLD&x=1")
                  (js "$1,234.5") (js "Electronics")
       ++ TAB :: js "ignored" ++ TAB :: js " https://img.example/lamp.png ") 0
  = Some (mkProduct 1 (js "Desk Lamp") (js "https://x.com/p?ref=100201678&x=1")
                    (js "$1234.50") (js "electronics")
                    (js "https://img.example/lamp.png")).
Proof.
  rewrite (parseRow_well_formed (H := sample_host));
    try (vm_compute; reflexivity);
    try (intros x Hx; simpl in Hx;
         repeat (destruct Hx as [<- | Hx]; [vm_compute; intuition discriminate|]);
         destruct Hx);
    vm_compute; discriminate.
Defined.

(** *** The records of a catalog *)

Lemma formatPrice_dollar (raw : option jsstring) :
  exists rest, formatPrice raw = DOLLAR :: rest.
Proof.
  destruct raw as [raw|]; unfold formatPrice; [|eexists; reflexivity].
  cbv zeta. destruct (negb (isFinite (Number (stripped raw))));
    eexists; reflexivity.
Qed.

Lemma parseRow_fields `{Host} (line : jsstring) (i : nat) (p : Product) :
  parseRow line i = Some p ->
  name p <> [] /\ trim (name p) = name p /\ trim (image p) = image p /\
  (exists rest, price p = DOLLAR :: rest) /\ id p = i + 1.
Proof.
  unfold parseRow.
  destruct (List.length (split_char TAB line) <? 3); [discriminate|].
  match goal with |- context [negb (truthy ?n)] =>
                    destruct (truthy n) eqn:Hn end; cbn [negb]; [|discriminate].
  intros E; injection E as <-; cbn [name image price id].
  split; [intros E; rewrite E in Hn; discriminate|].
  split; [apply trim_idem|]. split; [apply trim_idem|].
  split; [|reflexivity].
  match goal with |- context [if ?b then _ else _] => destruct b end;
    eexists; reflexivity.
Qed.

Lemma parse_rows_in `{Host} (lines : list jsstring) :
  forall out p,
    In p (parse_rows lines out) ->
    In p out \/ exists line i, In line lines /\ parseRow line i = Some p.
Proof.
  induction lines as [|line rest IH]; intros out p; simpl; [tauto|].
  destruct (parseRow line (List.length out)) as [row|] eqn:Hrow; intros Hin.
  - destruct (IH _ _ Hin) as [Hout | [l [i [Hl Hp]]]].
    + apply in_app_iff in Hout. destruct Hout as [Hout | [<- | []]]; [tauto|].
      right. exists line, (List.length out). tauto.
    + right. exists l, i. tauto.
  - destruct (IH _ _ Hin) as [Hout | [l [i [Hl Hp]]]]; [tauto|].
    right. exists l, i. tauto.
Qed.

(** X. Every record that [loadProducts] returns has a name that is not
    empty and carries no white space around it, a trimmed image, a price
    that starts with a dollar sign and an id between 1 and the number of
    records, and it is what the row parser makes of one of the data lines. *)
Theorem loadProducts_records `{Host}
        (f : Fetch) (out : list Product) (p : Product) :
  loadProducts f = inr out -> In p out ->
  name p <> [] /\ trim (name p) = name p /\ trim (image p) = image p /\
  (exists rest, price p = DOLLAR :: rest) /\
  1 <= id p <= List.length out /\
  exists text line,
    f = Response true (Some text) /\ In line (data_lines text) /\
    parseRow line (id p - 1) = Some p.
Proof.
  destruct f as [|[|] [text|]]; simpl; try discriminate.
  intros E Hin; inversion E; subst out; clear E.
  rewrite parse_text_data_lines in *.
  destruct (parse_rows_in _ _ _ Hin) as [[] | [line [i [Hl Hp]]]].
  destruct (parseRow_fields _ _ Hp) as [Hn [Htn [Hti [Hpr Hid]]]].
  repeat split; try assumption.
  - lia.
  - destruct (parse_rows_spec (data_lines text) []) as [more [E [_ [Hids _]]]].
    simpl in E, Hids. rewrite E in *.
    apply (in_map id) in Hin. rewrite Hids in Hin. apply in_seq in Hin. lia.
  - exists text, line. repeat split; try assumption.
    rewrite Hid. replace (i + 1 - 1) with i by lia. assumption.
Qed.

Lemma loadProducts_records_witness :
  exists p,
    nth_error (parse_text (H := sample_host) sample_text) 1 = Some p /\
    name p <> [] /\ id p = 2.
Proof.
  destruct (nth_error (parse_text (H := sample_host) sample_text) 1)
    as [p|] eqn:Hp; [|vm_compute in Hp; discriminate].
  exists p. split; [reflexivity|].
  destruct (loadProducts_records (H := sample_host)
              (Response true (Some sample_text)) p eq_refl
              (nth_error_In _ _ Hp)) as [Hn _].
  split; [exact Hn|].
  vm_compute in Hp. inversion Hp. reflexivity.
Defined.

(** X. A row without a parenthesis segment, or with a blank one, gets the
    placeholder in place of a link; a link that the URL parser refuses is
    offered as it was written. *)
Theorem card_link_affordance `{Host} (line : jsstring) (i : nat) (p : Product) :
  parseRow line i = Some p ->
  let raw := trim (capture_or_empty LPAREN RPAREN
                     (trim (nth 0 (split_char TAB line) []))) in
  (raw = [] -> link p = [] /\ action (createCard p) = LinkChecking) /\
  (raw <> [] -> URL_parse raw = None ->
   link p = raw /\ action (createCard p) = Buy raw).
Proof.
  unfold parseRow.
  destruct (List.length (split_char TAB line) <? 3); [discriminate|].
  match goal with |- context [negb (truthy ?n)] => destruct (truthy n) end;
    simpl; [|discriminate].
  intros E; inversion E; subst p; clear E. cbv zeta.
  set (raw := trim (capture_or_empty LPAREN RPAREN
                      (trim (nth 0 (split_char TAB line) [])))).
  unfold createCard; simpl. split.
  - intros ->. split; reflexivity.
  - intros Hraw Hparse. unfold updateRef. rewrite Hparse.
    destruct raw; [congruence|]. split; reflexivity.
Qed.

Lemma card_link_affordance_witness :
  exists p,
    parseRow (H := sample_host)
             (js "[Lamp](not a url)" ++ [TAB; TAB]) 0 = Some p /\
    action (createCard (H := sample_host) p) = Buy (js "not a url").
Proof.
  destruct (parseRow (H := sample_host) (js "[Lamp](not a url)" ++ [TAB; TAB]) 0)
    as [p|] eqn:Hp; [|vm_compute in Hp; discriminate].
  exists p. split; [reflexivity|].
  destruct (card_link_affordance (H := sample_host) _ _ Hp) as [_ Hbuy].
  destruct Hbuy as [_ Hb]; [vm_compute; discriminate | vm_compute; reflexivity|].
  exact Hb.
Defined.

(** *** Line breaks *)

Lemma split_lines_cons (c : char) (r : jsstring) :
  c <> LF -> c <> CR -> split_lines (c :: r) = cons_first c (split_lines r).
Proof.
  intros Hlf Hcr. apply N.eqb_neq in Hlf, Hcr.
  destruct r as [|c2 r2]; simpl; rewrite ?Hlf, ?Hcr; reflexivity.
Qed.

Lemma split_lines_LF (r : jsstring) : split_lines (LF :: r) = [] :: split_lines r.
Proof. destruct r; reflexivity. Qed.

Lemma split_lines_CRLF (r : jsstring) :
  split_lines (CR :: LF :: r) = [] :: split_lines r.
Proof. reflexivity. Qed.

Lemma split_lines_plain (l : jsstring) :
  avoids l [CR; LF] -> split_lines l = [l].
Proof.
  induction l as [|c l IH]; intros Hl; [reflexivity|].
  rewrite split_lines_cons.
  - rewrite IH; [reflexivity|].
    intros x Hx Hin. apply (Hl x Hx). right; assumption.
  - intros ->. apply (Hl LF); simpl; tauto.
  - intros ->. apply (Hl CR); simpl; tauto.
Qed.

Lemma split_lines_sep (sep l r : jsstring) :
  sep = [LF] \/ sep = [CR; LF] -> avoids l [CR; LF] ->
  split_lines (l ++ sep ++ r) = l :: split_lines r.
Proof.
  intros Hsep. induction l as [|c l IH]; intros Hl.
  - destruct Hsep as [-> | ->]; simpl app;
      [apply split_lines_LF | apply split_lines_CRLF].
  - change ((c :: l) ++ sep ++ r) with (c :: (l ++ sep ++ r)).
    rewrite split_lines_cons.
    + rewrite IH; [reflexivity|].
      intros x Hx Hin. apply (Hl x Hx). right; assumption.
    + intros ->. apply (Hl LF); simpl; tauto.
    + intros ->. apply (Hl CR); simpl; tauto.
Qed.

(** X. Splitting undoes joining: lines without carriage return and line
    feed, joined by line feeds or by carriage return and line feed, are
    split into the same lines again, so the two kinds of line ending give
    the same records. *)
Theorem split_lines_join `{Host} (sep sep' : jsstring) (ls : list jsstring) :
  sep = [LF] \/ sep = [CR; LF] -> sep' = [LF] \/ sep' = [CR; LF] ->
  ls <> [] -> Forall (fun l => avoids l [CR; LF]) ls ->
  split_lines (join sep ls) = ls /\
  parse_text (join sep ls) = parse_text (join sep' ls).
Proof.
  intros Hsep Hsep' Hne Hls.
  assert (Hsplit : forall s, s = [LF] \/ s = [CR; LF] ->
                             split_lines (join s ls) = ls).
  { intros s Hs. induction Hls as [|l rest Hl Hrest IH];
      [congruence|].
    destruct rest as [|l2 rest].
    - simpl. apply split_lines_plain. assumption.
    - change (join s (l :: l2 :: rest)) with (l ++ s ++ join s (l2 :: rest)).
      rewrite split_lines_sep by assumption.
      rewrite IH by discriminate. reflexivity. }
  split; [apply Hsplit; assumption|].
  unfold parse_text. rewrite !Hsplit by assumption. reflexivity.
Qed.

Lemma split_lines_join_witness :
  split_lines (join [CR; LF] [js "name"; sample_row; sample_row])
  = [js "name"; sample_row; sample_row] /\
  parse_text (H := sample_host) (join [CR; LF] [js "name"; sample_row; sample_row])
  = parse_text (H := sample_host) (join [LF] [js "name"; sample_row; sample_row]).
Proof.
  apply (split_lines_join (H := sample_host));
    [right; reflexivity | left; reflexivity | discriminate |].
  repeat constructor;
    intros x Hx; simpl in Hx;
    repeat (destruct Hx as [<- | Hx]; [vm_compute; intuition discriminate|]);
    destruct Hx.
Defined.

(** *** Rewriting a link twice *)

Lemma first_named_split (n : jsstring) (l : list (jsstring * jsstring)) :
  existsb (named n) l = true ->
  exists pre p post,
    l = pre ++ p :: post /\ existsb (named n) pre = false /\ named n p = true.
Proof.
  induction l as [|q l IH]; simpl; [discriminate|].
  destruct (named n q) eqn:Hq; simpl.
  - intros _. exists [], q, l. auto.
  - intros E. destruct (IH E) as [pre [p [post [-> [Hpre Hp]]]]].
    exists (q :: pre), p, post. simpl. rewrite Hq. auto.
Qed.

Lemma existsb_others (n : jsstring) (l : list (jsstring * jsstring)) :
  existsb (named n) (filter (fun q => negb (named n q)) l) = false.
Proof.
  induction l as [|q l IH]; simpl; [reflexivity|].
  destruct (named n q) eqn:Hq; simpl; [exact IH | rewrite Hq; exact IH].
Qed.

(** After [set] the list holds the pair once, and nowhere else the name. *)
Lemma params_set_normal (n v : jsstring) (l : list (jsstring * jsstring)) :
  exists pre post,
    params_set n v l = pre ++ (n, v) :: post /\
    existsb (named n) pre = false /\ existsb (named n) post = false.
Proof.
  destruct (existsb (named n) l) eqn:E.
  - destruct (first_named_split _ _ E) as [pre [p [post [-> [Hpre Hp]]]]].
    exists pre, (filter (fun q => negb (named n q)) post).
    rewrite params_set_present by assumption.
    split; [reflexivity|]. split; [assumption | apply existsb_others].
  - exists l, []. unfold params_set. rewrite E. auto.
Qed.

Lemma params_set_idem (n v : jsstring) (l : list (jsstring * jsstring)) :
  params_set n v (params_set n v l) = params_set n v l.
Proof.
  destruct (params_set_normal n v l) as [pre [post [-> [Hpre Hpost]]]].
  rewrite params_set_present; [|assumption | apply jseqb_refl].
  rewrite filter_others_id by assumption. reflexivity.
Qed.

(** X. Rewriting a link a second time changes nothing, for a host whose
    parser reads back what its serialiser wrote for this link. *)
Theorem updateRef_idempotent `{Host} (l : jsstring) :
  (forall u, URL_parse l = Some u ->
             URL_parse (updateRef l)
             = Some (mkURL (url_base u)
                           (params_set (js "ref") (js "100201678") (searchParams u))
                           (url_hash u))) ->
  updateRef (updateRef l) = updateRef l.
Proof.
  intros Hback.
  destruct (URL_parse l) as [u|] eqn:Hu.
  - specialize (Hback u eq_refl).
    assert (E : updateRef l
                = URL_href (mkURL (url_base u)
                              (params_set (js "ref") (js "100201678")
                                          (searchParams u))
                              (url_hash u)))
      by (unfold updateRef; rewrite Hu; reflexivity).
    rewrite E in *. unfold updateRef. rewrite Hback. cbn [url_base searchParams url_hash].
    rewrite params_set_idem. reflexivity.
  - assert (E : updateRef l = l) by (unfold updateRef; rewrite Hu; reflexivity).
    rewrite E. exact E.
Qed.

Lemma updateRef_idempotent_witness :
  updateRef (H := sample_host)
            (updateRef (H := sample_host) (js "https://x.com/p?ref=OLD&x=1"))
  = js "https://x.com/p?ref=100201678&x=1".
Proof.
  rewrite (updateRef_idempotent (H := sample_host)).
  - vm_compute. reflexivity.
  - intros u Hu. vm_compute in Hu. injection Hu as <-. vm_compute. reflexivity.
Defined.

(** ** Further properties of the renderer *)

Section Scrolling.
Context `{Host}.

Lemma next_batch_rendered (s : State) :
  grid s = true -> rendered s <= List.length (PRODUCTS s) ->
  rendered (next_batch s)
  = Nat.min (rendered s + 24) (List.length (PRODUCTS s)).
Proof.
  intros Hg Hle. unfold next_batch. rewrite Hg. cbn [andb].
  destruct (Nat.ltb_spec (rendered s) (List.length (PRODUCTS s))).
  - destruct (after_batch_fields s) as [Hr _]. rewrite Hr. reflexivity.
  - lia.
Qed.

Lemma step_Scroll_near (w : Window) (s : State) :
  view_exists (dom s) = true -> view_hidden (dom s) = false ->
  nearBottom w = true -> step s (Scroll w) = next_batch s.
Proof.
  intros Hv Hh Hn. unfold step; simpl. unfold onScroll.
  rewrite Hv, Hh, Hn. simpl. apply state_of_renderMore.
Qed.

(** X. With the view initialised and visible, [k] scroll events near the
    bottom bring the cursor to [min (r + 24 k) N] and the grid to the cards
    of the first that many records; once [r + 24 k] reaches [N] every
    record has its card. *)
Theorem scrolling_renders_all (w : Window) (k : nat) :
  forall s,
    coherent s -> grid s = true ->
    view_exists (dom s) = true -> view_hidden (dom s) = false ->
    nearBottom w = true ->
    let s' := run s (repeat (Scroll w) k) in
    rendered s' = Nat.min (rendered s + 24 * k) (List.length (PRODUCTS s)) /\
    PRODUCTS s' = PRODUCTS s /\
    main_children (dom s') = cards (firstn (rendered s') (PRODUCTS s)) /\
    (List.length (PRODUCTS s) <= rendered s + 24 * k ->
     main_children (dom s') = cards (PRODUCTS s)).
Proof.
  induction k as [|k IH]; intros s Hs Hg Hv Hh Hn; cbv zeta.
  - cbn [repeat run fold_left]. destruct Hs as [Hr [_ [_ Hc]]].
    assert (E : Nat.min (rendered s + 24 * 0) (List.length (PRODUCTS s))
                = rendered s) by lia.
    rewrite E. split; [reflexivity|]. split; [reflexivity|].
    split; [apply Hc; assumption|].
    intros Hall. rewrite (Hc Hg), firstn_all2 by lia. reflexivity.
  - cbn [repeat run fold_left]. fold (run (step s (Scroll w)) (repeat (Scroll w) k)).
    rewrite step_Scroll_near by assumption.
    destruct (next_batch_fields s) as [HP [Hg' [_ [_ [_ [_ [_ [Hv' Hh']]]]]]]].
    pose proof (next_batch_rendered s Hg (proj1 Hs)) as Hr'.
    destruct (IH (next_batch s)) as [Hr2 [HP2 [Hc2 Hall2]]];
      [apply coherent_next_batch; assumption | congruence | congruence
       | congruence | assumption |].
    rewrite HP in *. rewrite Hr' in *.
    assert (E : Nat.min (Nat.min (rendered s + 24) (List.length (PRODUCTS s))
                         + 24 * k) (List.length (PRODUCTS s))
                = Nat.min (rendered s + 24 * S k) (List.length (PRODUCTS s)))
      by lia.
    rewrite E in Hr2.
    split; [assumption|]. split; [assumption|]. split; [assumption|].
    intros Hall. rewrite Hc2, Hr2, firstn_all2 by lia. reflexivity.
Qed.

(** X. What the handler of [load] shows depends on the latch.  With the
    view visible and not yet initialised it initialises the view and shows
    the first 24 records.  When the view was initialised before the catalog
    arrived, it shows nothing: the records are stored, the cursor stays at
    0 and the grid stays empty until a scroll. *)
Theorem load_shows_first_batch (s : State) (f : Fetch) (ps : list Product) :
  consistent s -> enabled (Load f) s = true ->
  loadProducts f = inr ps ->
  let s' := step s (Load f) in
  PRODUCTS s' = ps /\ scroll_listener s' = true /\
  (initialized s = true ->
   rendered s' = 0 /\ main_children (dom s') = [] /\ initialized s' = true) /\
  (initialized s = false ->
   view_exists (dom s) = true -> view_hidden (dom s) = false ->
   rendered s' = Nat.min 24 (List.length ps) /\
   main_children (dom s') = cards (firstn 24 ps) /\ initialized s' = true).
Proof.
  intros [[Hr [Hgi [Hg0 Hc]]] Hl] Hen Hf. simpl in Hen.
  apply negb_true_iff in Hen. specialize (Hl Hen).
  rewrite Hl in Hr, Hc. simpl in Hr, Hc.
  assert (Hr0 : rendered s = 0) by lia. rewrite Hr0 in Hc.
  cbv zeta. unfold step. rewrite step_Load.
  unfold loaded. rewrite Hf. cbn [state_of].
  set (L := set_PRODUCTS ps s).
  assert (HL : PRODUCTS L = ps /\ rendered L = 0 /\ initialized L = initialized s
               /\ dom L = dom s /\ grid L = grid s).
  { unfold L; simpl. auto. }
  destruct HL as [HLP [HLr [HLi [HLd HLg]]]].
  destruct (activated_forward L) as [_ [HaP [_ Hid]]].
  split; [|split; [reflexivity|split]].
  - destruct (view_exists (dom L) && negb (view_hidden (dom L)));
      simpl; congruence.
  - intros Hi. rewrite Hid by congruence.
    assert (E : (if view_exists (dom L) && negb (view_hidden (dom L))
                 then L else L) = L) by (destruct (_ && _); reflexivity).
    rewrite E. simpl. rewrite Hr0. split; [reflexivity|].
    split; [apply Hc; congruence | assumption].
  - intros Hi Hv Hh. rewrite HLd, Hv, Hh. cbn [andb negb].
    unfold activated. rewrite HLi, Hi, HLd, Hv. cbn [orb negb].
    destruct (bind_elements_fields L)
      as [HbP [Hbr [_ [Hbg [_ [_ [_ [_ [Hbc _]]]]]]]]].
    set (b := bind_elements L) in *.
    unfold set_scroll_listener, set_initialized;
      cbn [rendered dom initialized].
    pose proof (@next_batch_rendered b Hbg) as Hnr.
    rewrite HbP, Hbr, HLP, HLr in Hnr. specialize (Hnr (Nat.le_0_l _)).
    split; [exact Hnr|]. split; [|reflexivity].
    destruct (next_batch_forward b) as [_ [_ [_ [Hcards _]]]].
    rewrite Hcards.
    + rewrite Hnr, HbP, HLP.
      destruct (Nat.le_ge_cases 24 (List.length ps)).
      * rewrite Nat.min_l by assumption. reflexivity.
      * rewrite Nat.min_r by assumption.
        rewrite !firstn_all2 by lia. reflexivity.
    + rewrite Hbr, HLr. lia.
    + rewrite Hbc, Hbr, HLr. reflexivity.
Qed.

End Scrolling.

Lemma scrolling_renders_all_witness :
  main_children
    (dom (run (H := sample_host) sample_fifty (repeat (Scroll sample_window) 3)))
  = cards (H := sample_host) (PRODUCTS sample_fifty).
Proof.
  refine (proj2 (proj2 (proj2
            (@scrolling_renders_all sample_host sample_window 3 sample_fifty
               _ eq_refl eq_refl eq_refl eq_refl))) _).
  - unfold coherent. simpl. split; [lia|]. split; [reflexivity|].
    split; [discriminate | reflexivity].
  - simpl. lia.
Defined.

Lemma load_shows_first_batch_witness :
  let s := run (H := sample_host) (initial sample_page)
               [Navigate (js "data") (Some true); Timeout] in
  initialized s = true /\
  rendered (step (H := sample_host) s (Load (Response true (Some sample_text)))) = 0 /\
  List.length (PRODUCTS (step (H := sample_host) s
                              (Load (Response true (Some sample_text))))) = 2.
Proof.
  cbv zeta. split; [reflexivity|].
  destruct (@load_shows_first_batch sample_host
              (run (H := sample_host) (initial sample_page)
                   [Navigate (js "data") (Some true); Timeout])
              (Response true (Some sample_text))
              (parse_text (H := sample_host) sample_text))
    as [HP [_ [Hinit _]]].
  - apply (run_consistent (H := sample_host)
             [Navigate (js "data") (Some true); Timeout]
             (consistent_initial sample_page)). reflexivity.
  - reflexivity.
  - reflexivity.
  - destruct (Hinit eq_refl) as [Hr _]. split; [exact Hr|].
    rewrite HP. vm_compute. reflexivity.
Defined.
